(** * Crop-health index pipeline ([src/evaluate.py])

    A shallow embedding of the numeric core of [evaluate.py]: the band
    slices [data[:, :, k]], the two normalized-difference indices
    ([calculate_ndvi], [calculate_ndwi]), the fused score
    ([create_health_map]) and the two threshold percentages computed at the
    end of [main].

    Numbers.  The cube holds real-valued samples, float64 in numpy.  The
    properties are proved over exact rationals ([Qc]) extended with the
    three IEEE-754 special values that numpy produces instead of raising:
    [PInf], [NInf] and [NaN].  This arithmetic follows IEEE-754 for the
    special values (x/0, inf-inf, inf*0, comparisons with NaN) and is exact
    on finite values; the literals 1e-10, 0.6 and 0.3 denote the exact
    decimals and zero is unsigned.  Rounding, absorption and overflow are
    not in it, so only properties that rounding preserves are stated over
    it.  Where rounding or overflow decides, the program is evaluated on
    binary64 itself, in [Binary64], on concrete inputs.

    Arrays.  A numpy array is its shape together with its elements in
    row-major order.  Failing operations return the exception they raise. *)

From Stdlib Require Import ZArith QArith Qcanon Lia Lqa.
From Stdlib Require PrimFloat Uint63.

#[local] Set Warnings "-inexact-float".
From stdpp Require Import base decidable option list numbers.

(** ** Scalars *)

Module Scalar.

Local Open Scope Qc_scope.

Inductive npfloat : Type :=
  | Fin (q : Qc)
  | PInf
  | NInf
  | NaN.

#[global] Instance npfloat_eq_dec : EqDecision npfloat.
Proof. solve_decision. Defined.

(** A decimal literal [num / den]. *)
Definition lit (num : Z) (den : positive) : npfloat := Fin (Q2Qc (num # den)).

Definition of_nat (n : nat) : npfloat := Fin (Qc_of_Z (Z.of_nat n)).

Definition of_bool (b : bool) : npfloat := if b then lit 1 1 else lit 0 1.

Definition isnan (x : npfloat) : bool :=
  match x with NaN => true | _ => false end.

Definition isfinite (x : npfloat) : bool :=
  match x with Fin _ => true | _ => false end.

Definition negative (x : npfloat) : npfloat :=
  match x with
  | Fin a => Fin (- a)
  | PInf => NInf
  | NInf => PInf
  | NaN => NaN
  end.

Definition add (x y : npfloat) : npfloat :=
  match x, y with
  | NaN, _ | _, NaN => NaN
  | Fin a, Fin b => Fin (a + b)
  | PInf, NInf | NInf, PInf => NaN
  | PInf, _ | _, PInf => PInf
  | NInf, _ | _, NInf => NInf
  end.

Definition subtract (x y : npfloat) : npfloat :=
  match x, y with
  | NaN, _ | _, NaN => NaN
  | Fin a, Fin b => Fin (a - b)
  | PInf, PInf | NInf, NInf => NaN
  | PInf, _ | _, NInf => PInf
  | NInf, _ | _, PInf => NInf
  end.

(** [inf * q]: the sign of [q] decides, and [inf * 0] is NaN. *)
Definition scale_inf (pos : bool) (q : Qc) : npfloat :=
  if decide (q = 0) then NaN
  else if bool_decide (0 < q) then (if pos then PInf else NInf)
  else (if pos then NInf else PInf).

Definition multiply (x y : npfloat) : npfloat :=
  match x, y with
  | NaN, _ | _, NaN => NaN
  | Fin a, Fin b => Fin (a * b)
  | PInf, Fin b | Fin b, PInf => scale_inf true b
  | NInf, Fin b | Fin b, NInf => scale_inf false b
  | PInf, PInf | NInf, NInf => PInf
  | PInf, NInf | NInf, PInf => NInf
  end.

(** [np.true_divide]: a zero divisor does not raise; it yields an infinity
    with the sign of the dividend, or NaN for 0/0. *)
Definition true_divide (x y : npfloat) : npfloat :=
  match x, y with
  | NaN, _ | _, NaN => NaN
  | Fin a, Fin b =>
      if decide (b = 0) then
        if decide (a = 0) then NaN
        else if bool_decide (0 < a) then PInf else NInf
      else Fin (a / b)
  | Fin _, _ => Fin 0
  | PInf, Fin b => if bool_decide (b < 0) then NInf else PInf
  | NInf, Fin b => if bool_decide (b < 0) then PInf else NInf
  | _, _ => NaN
  end.

(** Comparisons: every comparison with NaN is false. *)
Definition less (x y : npfloat) : bool :=
  match x, y with
  | NaN, _ | _, NaN => false
  | Fin a, Fin b => bool_decide (a < b)
  | _, NInf | PInf, _ => false
  | NInf, _ | _, PInf => true
  end.

Definition less_equal (x y : npfloat) : bool :=
  match x, y with
  | NaN, _ | _, NaN => false
  | Fin a, Fin b => bool_decide (a ≤ b)
  | NInf, _ | _, PInf => true
  | _, NInf | PInf, _ => false
  end.

Definition greater (x y : npfloat) : bool := less y x.
Definition greater_equal (x y : npfloat) : bool := less_equal y x.

(** [np.maximum] and [np.minimum] propagate NaN. *)
Definition maximum (x y : npfloat) : npfloat :=
  if isnan x then x else if isnan y then y
  else if less x y then y else x.

Definition minimum (x y : npfloat) : npfloat :=
  if isnan x then x else if isnan y then y
  else if less y x then y else x.

(** [np.clip(x, lo, hi)] is [minimum(maximum(x, lo), hi)]. *)
Definition clip (x lo hi : npfloat) : npfloat := minimum (maximum x lo) hi.

End Scalar.

Export Scalar.

(** ** Exceptions *)

Inductive exn : Type :=
  | IndexError
  | ValueError.

Inductive result (A : Type) : Type :=
  | Ok (a : A)
  | Raise (e : exn).
Arguments Ok {A} a.
Arguments Raise {A} e.

Definition bind {A B} (m : result A) (k : A → result B) : result B :=
  match m with
  | Ok a => k a
  | Raise e => Raise e
  end.

Notation "'let!' x ':=' m 'in' k" := (bind m (λ x, k))
  (at level 10, x binder, m at level 100, k at level 200).

(** ** Arrays *)

Module Ndarray.

(** A two-dimensional array of shape [(nrows, ncols)]. *)
Record ndarray (A : Type) : Type := mk_ndarray {
  nrows : nat;
  ncols : nat;
  flat : list A
}.
Arguments mk_ndarray {A} nrows ncols flat.
Arguments nrows {A} _.
Arguments ncols {A} _.
Arguments flat {A} _.

(** A three-dimensional array of shape [(dim0, dim1, dim2)], indexed by
    (row, column, band). *)
Record cube (A : Type) : Type := mk_cube {
  dim0 : nat;
  dim1 : nat;
  dim2 : nat;
  cells : list A
}.
Arguments mk_cube {A} dim0 dim1 dim2 cells.
Arguments dim0 {A} _.
Arguments dim1 {A} _.
Arguments dim2 {A} _.
Arguments cells {A} _.

Definition shape {A} (a : ndarray A) : nat * nat := (nrows a, ncols a).
Definition size {A} (a : ndarray A) : nat := nrows a * ncols a.

Definition wf_ndarray {A} (a : ndarray A) : Prop :=
  length (flat a) = nrows a * ncols a.

Definition wf_cube {A} (d : cube A) : Prop :=
  length (cells d) = dim0 d * dim1 d * dim2 d.

(** [a[i, j]] and [data[i, j, k]] for indices in range. *)
Definition get2 {A} (a : ndarray A) (i j : nat) : option A :=
  if decide (i < nrows a ∧ j < ncols a) then flat a !! (i * ncols a + j)
  else None.

Definition get3 {A} (d : cube A) (i j k : nat) : option A :=
  if decide (i < dim0 d ∧ j < dim1 d ∧ k < dim2 d)
  then cells d !! ((i * dim1 d + j) * dim2 d + k)
  else None.

(** An integer index into an axis of length [n]: negative indices count
    from the end, anything else out of range raises [IndexError]. *)
Definition normalize_index (n : nat) (k : Z) : result nat :=
  if decide (0 ≤ k < Z.of_nat n)%Z then Ok (Z.to_nat k)
  else if decide (- Z.of_nat n ≤ k < 0)%Z then Ok (Z.to_nat (k + Z.of_nat n))
  else Raise IndexError.

(** [data[:, :, k]] *)
Definition band {A} (data : cube A) (k : Z) : result (ndarray A) :=
  let! b := normalize_index (dim2 data) k in
  Ok (mk_ndarray (dim0 data) (dim1 data)
        (omap (λ p, cells data !! (p * dim2 data + b))
              (seq 0 (dim0 data * dim1 data)))).

(** A unary ufunc, and a binary ufunc with one scalar operand. *)
Definition ufunc1 {A B} (f : A → B) (a : ndarray A) : ndarray B :=
  mk_ndarray (nrows a) (ncols a) (f <$> flat a).

(** Broadcasting of one axis: equal lengths, or one of them is 1. *)
Definition broadcast_dim (m n : nat) : option nat :=
  if decide (m = n) then Some m
  else if decide (m = 1) then Some n
  else if decide (n = 1) then Some m
  else None.

Definition stretch (len i : nat) : nat := if decide (len = 1) then 0 else i.

Definition bget {A} (a : ndarray A) (i j : nat) : option A :=
  get2 a (stretch (nrows a) i) (stretch (ncols a) j).

(** A binary ufunc on two arrays.  Arrays of one shape are combined
    element by element; otherwise the shapes are broadcast, and shapes that
    cannot be broadcast raise [ValueError]. *)
Definition ufunc2 {A B C} (f : A → B → C) (a : ndarray A) (b : ndarray B)
    : result (ndarray C) :=
  if decide (shape a = shape b) then
    Ok (mk_ndarray (nrows a) (ncols a) (zip_with f (flat a) (flat b)))
  else
    match broadcast_dim (nrows a) (nrows b), broadcast_dim (ncols a) (ncols b) with
    | Some r, Some c =>
        Ok (mk_ndarray r c
              (i ← seq 0 r; j ← seq 0 c;
               option_list (x ← bget a i j; y ← bget b i j; Some (f x y))))
    | _, _ => Raise ValueError
    end.

(** [np.mean] over all elements: the sum divided by the number of
    elements; on an empty array this is 0/0. *)
Definition mean (a : ndarray npfloat) : npfloat :=
  true_divide (foldl add (lit 0 1) (flat a)) (of_nat (size a)).

(** [np.mean] of a boolean array sums it as float64. *)
Definition mean_bool (a : ndarray bool) : npfloat := mean (ufunc1 of_bool a).

End Ndarray.

Export Ndarray.

(** ** The program *)

(** The float literals of the source. *)
Definition c_1e_10 : npfloat := lit 1 10000000000.
Definition c_0_6 : npfloat := lit 6 10.
Definition c_0_3 : npfloat := lit 3 10.
Definition c_0 : npfloat := lit 0 1.
Definition c_1 : npfloat := lit 1 1.
Definition c_100 : npfloat := lit 100 1.

(** [calculate_ndvi]:
    [red_band = data[:, :, 50]; nir_band = data[:, :, 90];
     ndvi = (nir_band - red_band) / (nir_band + red_band + 1e-10)] *)
Definition calculate_ndvi (data : cube npfloat) : result (ndarray npfloat) :=
  let! red_band := band data 50 in
  let! nir_band := band data 90 in
  let! num := ufunc2 subtract nir_band red_band in
  let! den := ufunc2 add nir_band red_band in
  ufunc2 true_divide num (ufunc1 (λ x, add x c_1e_10) den).

(** [calculate_ndwi]:
    [nir_band = data[:, :, 90]; swir_band = data[:, :, 150];
     ndwi = (nir_band - swir_band) / (nir_band + swir_band + 1e-10)] *)
Definition calculate_ndwi (data : cube npfloat) : result (ndarray npfloat) :=
  let! nir_band := band data 90 in
  let! swir_band := band data 150 in
  let! num := ufunc2 subtract nir_band swir_band in
  let! den := ufunc2 add nir_band swir_band in
  ufunc2 true_divide num (ufunc1 (λ x, add x c_1e_10) den).

(** [create_health_map]:
    [health_score = ndvi * (1 - np.clip(ndwi, 0, 1))] *)
Definition create_health_map (ndvi ndwi : ndarray npfloat)
    : result (ndarray npfloat) :=
  ufunc2 multiply ndvi
    (ufunc1 (λ x, subtract c_1 x) (ufunc1 (λ x, clip x c_0 c_1) ndwi)).

(** The statistics at the end of [main]:
    [healthy_area = np.mean(health_map > 0.6) * 100]
    [stressed_area = np.mean(health_map < 0.3) * 100] *)
Definition healthy_area (health_map : ndarray npfloat) : npfloat :=
  multiply (mean_bool (ufunc1 (λ x, greater x c_0_6) health_map)) c_100.

Definition stressed_area (health_map : ndarray npfloat) : npfloat :=
  multiply (mean_bool (ufunc1 (λ x, less x c_0_3) health_map)) c_100.

(** What [main] computes from the loaded cube; the plots and prints are
    left out, except that the first panel slices band 100. *)
Record report : Type := mk_report {
  r_ndvi : ndarray npfloat;
  r_ndwi : ndarray npfloat;
  r_health_map : ndarray npfloat;
  r_healthy_area : npfloat;
  r_stressed_area : npfloat
}.

Definition main (data : cube npfloat) : result report :=
  let! ndvi := calculate_ndvi data in
  let! ndwi := calculate_ndwi data in
  let! health_map := create_health_map ndvi ndwi in
  let! _ := band data 100 in
  Ok (mk_report ndvi ndwi health_map
        (healthy_area health_map) (stressed_area health_map)).

(** ** The program on binary64 values

    The same expressions evaluated on IEEE-754 binary64 numbers, as numpy
    evaluates them, with rounding, absorption and overflow.  The arrays and
    the slices are the ones above; only the element type changes.  It is
    used to evaluate the program on concrete inputs where the rounding
    decides the result. *)

Module Binary64.

Import PrimFloat.
Local Open Scope float_scope.

(** The number of elements as a float64, exact below 2^53. *)
Definition of_nat (n : nat) : float := of_uint63 (Uint63.of_Z (Z.of_nat n)).

Definition of_bool (b : bool) : float := if b then 1 else 0.

Definition greater (x y : float) : bool := y <? x.
Definition less (x y : float) : bool := x <? y.

Definition maximum (x y : float) : float :=
  if is_nan x then x else if is_nan y then y
  else if x <? y then y else x.

Definition minimum (x y : float) : float :=
  if is_nan x then x else if is_nan y then y
  else if y <? x then y else x.

Definition clip (x lo hi : float) : float := minimum (maximum x lo) hi.

(** [np.mean]: the float64 sum divided by the number of elements.  The
    sums taken here are sums of zeros and ones, which are exact in any
    order. *)
Definition mean (a : ndarray float) : float :=
  foldl PrimFloat.add 0 (flat a) / of_nat (size a).

Definition mean_bool (a : ndarray bool) : float := mean (ufunc1 of_bool a).

Definition calculate_ndvi (data : cube float) : result (ndarray float) :=
  let! red_band := band data 50 in
  let! nir_band := band data 90 in
  let! num := ufunc2 PrimFloat.sub nir_band red_band in
  let! den := ufunc2 PrimFloat.add nir_band red_band in
  ufunc2 PrimFloat.div num (ufunc1 (λ x, x + 1e-10) den).

Definition calculate_ndwi (data : cube float) : result (ndarray float) :=
  let! nir_band := band data 90 in
  let! swir_band := band data 150 in
  let! num := ufunc2 PrimFloat.sub nir_band swir_band in
  let! den := ufunc2 PrimFloat.add nir_band swir_band in
  ufunc2 PrimFloat.div num (ufunc1 (λ x, x + 1e-10) den).

Definition create_health_map (ndvi ndwi : ndarray float)
    : result (ndarray float) :=
  ufunc2 PrimFloat.mul ndvi
    (ufunc1 (λ x, 1 - x) (ufunc1 (λ x, clip x 0 1) ndwi)).

Definition healthy_area (health_map : ndarray float) : float :=
  mean_bool (ufunc1 (λ x, greater x 0.6) health_map) * 100.

Definition stressed_area (health_map : ndarray float) : float :=
  mean_bool (ufunc1 (λ x, less x 0.3) health_map) * 100.

(** A cube of shape (1, 1, 151) with the given samples at bands 50, 90 and
    150 and zero elsewhere. *)
Definition pixel_cube (red nir swir : float) : cube float :=
  mk_cube 1 1 151
    (<[50%nat := red]> (<[90%nat := nir]> (<[150%nat := swir]>
       (replicate 151%nat 0)))).


(** NIR = Red = SWIR = -5e-11. *)
Definition half_eps_cube : cube float :=
  pixel_cube (-5e-11) (-5e-11) (-5e-11).

(** Red = -1e-10, NIR = 0 and SWIR = -5e-11. *)
Definition saturating_cube : cube float := pixel_cube (-1e-10) 0 (-5e-11).

(** Eleven scores: two above 0.6 and nine below 0.3. *)
Definition eleven_scores : ndarray float :=
  mk_ndarray 1 11 (replicate 2%nat 0.7 ++ replicate 9%nat 0.1).

End Binary64.

(** ** Definitions used to state the properties *)

(** Clamping to [0, 1] in the words of the specification: values below 0
    become 0, values above 1 become 1, the others are kept. *)
Definition clamp01 (x : npfloat) : npfloat :=
  if less x c_0 then c_0 else if greater x c_1 then c_1 else x.

(** The value at one pixel: [(x - y) / (x + y + 1e-10)]. *)
Definition nd_pixel (x y : npfloat) : npfloat :=
  true_divide (subtract x y) (add (add x y) c_1e_10).

(** [normalized_difference(a, b)] of the specification:
    elementwise [(a - b) / (a + b + ε)] with ε = 1e-10. *)
Definition normalized_difference (a b : ndarray npfloat)
    : result (ndarray npfloat) :=
  let! num := ufunc2 subtract a b in
  let! den := ufunc2 add a b in
  ufunc2 true_divide num (ufunc1 (λ x, add x c_1e_10) den).

(** The value of one pixel of the fused score. *)
Definition health_pixel (v w : npfloat) : npfloat :=
  multiply v (subtract c_1 (clip w c_0 c_1)).

(** The number of pixels of a raster that satisfy a test. *)
Definition count_pixels (p : npfloat → bool) (h : ndarray npfloat) : nat :=
  length (List.filter p (flat h)).

(** The fraction of the pixels that satisfy a test, times 100. *)
Definition percentage_of (p : npfloat → bool) (h : ndarray npfloat) : npfloat :=
  multiply (true_divide (of_nat (count_pixels p h)) (of_nat (size h))) c_100.


(** ** Example inputs *)

(** The 151 samples of one pixel: the given values at bands 50, 90 and 150
    and zero elsewhere. *)
Definition spectrum (red nir swir : npfloat) : list npfloat :=
  <[50 := red]> (<[90 := nir]> (<[150 := swir]> (replicate 151 c_0))).

(** A cube of shape [(r, c, 151)] with the same spectrum at every pixel. *)
Definition uniform_cube (r c : nat) (red nir swir : npfloat) : cube npfloat :=
  mk_cube r c 151 (mjoin (replicate (r * c) (spectrum red nir swir))).

(** The cube of the specification's scenario: shape (2, 2, 151), band 50 is
    0.2, band 90 is 0.8 and band 150 is 0.1 everywhere. *)
Definition scenario_cube : cube npfloat :=
  uniform_cube 2 2 (lit 2 10) (lit 8 10) (lit 1 10).


(** A single pixel with NIR = Red = SWIR = -5e-11. *)
Definition half_eps_cube : cube npfloat :=
  uniform_cube 1 1 (lit (-5) 100000000000) (lit (-5) 100000000000)
    (lit (-5) 100000000000).

(** A single pixel with Red = -1e-10, NIR = 0 and SWIR = -5e-11. *)
Definition saturating_cube : cube npfloat :=
  uniform_cube 1 1 (lit (-1) 10000000000) c_0 (lit (-5) 100000000000).

Definition sample_ndvi : ndarray npfloat :=
  mk_ndarray 1 3 [lit 6 10; lit 5 10; lit (-2) 10].

Definition sample_ndwi : ndarray npfloat :=
  mk_ndarray 1 3 [lit 7 10; lit 15 10; lit (-4) 10].

(** A raster whose only pixel has the score 0.6. *)
Definition threshold_raster : ndarray npfloat := mk_ndarray 1 1 [c_0_6].

(** A raster of four scores: one above 0.6, two below 0.3, one between. *)
Definition sample_health : ndarray npfloat :=
  mk_ndarray 2 2 [lit 7 10; lit 1 10; lit 45 100; lit (-2) 10].

(** A cube of shape (1, 1, 100): bands 50 and 90 exist, band 150 does not. *)
Definition short_cube : cube npfloat :=
  mk_cube 1 1 100 (<[50 := lit 2 10]> (<[90 := lit 8 10]> (replicate 100 c_0))).

(** The scenario cube with band 0 changed to 0.9 at every pixel. *)
Definition perturbed_cube : cube npfloat :=
  mk_cube 2 2 151
    (mjoin (replicate 4 (<[0 := lit 9 10]> (spectrum (lit 2 10) (lit 8 10) (lit 1 10))))).

(** A raster of shape (0, 3): it has no pixels. *)
Definition empty_raster : ndarray npfloat := mk_ndarray 0 3 [].

(** A raster of shape (2, 3), which cannot be combined with one of shape (1, 3)
    row by row unless the single row is repeated, and one of shape (2, 2). *)
Definition tall_raster : ndarray npfloat :=
  mk_ndarray 2 3 [lit 1 10; lit 2 10; lit 3 10; lit 4 10; lit 5 10; lit 6 10].

Definition square_raster : ndarray npfloat :=
  mk_ndarray 2 2 [lit 1 10; lit 2 10; lit 3 10; lit 4 10].


(** ** Facts about arrays *)

Section array_facts.
Context {A B C : Type}.
Implicit Types (a : ndarray A) (d : cube A).

Lemma normalize_index_in_range (n : nat) (k : Z) :
  (0 ≤ k < Z.of_nat n)%Z → normalize_index n k = Ok (Z.to_nat k).
Proof. intros Hk. unfold normalize_index. by rewrite decide_True. Qed.

Lemma normalize_index_too_large (n : nat) (k : Z) :
  (Z.of_nat n ≤ k)%Z → normalize_index n k = Raise IndexError.
Proof.
  intros Hk. unfold normalize_index.
  rewrite !decide_False by lia. done.
Qed.

Lemma band_too_large d (k : Z) :
  (Z.of_nat (dim2 d) ≤ k)%Z → band d k = Raise IndexError.
Proof. intros Hk. unfold band. by rewrite normalize_index_too_large. Qed.

Lemma omap_seq_lookup (f : nat → option A) (start n p : nat) :
  (∀ q, q < n → is_Some (f (start + q))) →
  p < n →
  omap f (seq start n) !! p = f (start + p).
Proof.
  revert start p. induction n as [|n IH]; intros start p Hf Hp; [lia|].
  simpl. destruct (Hf 0 ltac:(lia)) as [x Hx].
  rewrite Nat.add_0_r in Hx. rewrite Hx.
  destruct p as [|p]; simpl.
  - by rewrite Nat.add_0_r.
  - rewrite IH; [f_equal; lia| |lia].
    intros q Hq. replace (S start + q) with (start + S q) by lia.
    apply Hf. lia.
Qed.

Lemma omap_seq_length (f : nat → option A) (start n : nat) :
  (∀ q, q < n → is_Some (f (start + q))) →
  length (omap f (seq start n)) = n.
Proof.
  revert start. induction n as [|n IH]; intros start Hf; [done|].
  simpl. destruct (Hf 0 ltac:(lia)) as [x Hx].
  rewrite Nat.add_0_r in Hx. rewrite Hx. simpl. f_equal.
  apply IH. intros q Hq. replace (S start + q) with (start + S q) by lia.
  apply Hf. lia.
Qed.

Lemma band_cells_some d (b : nat) :
  wf_cube d → b < dim2 d →
  ∀ q, q < dim0 d * dim1 d → is_Some (cells d !! ((0 + q) * dim2 d + b)).
Proof.
  intros Hwf Hb q Hq. apply lookup_lt_is_Some. rewrite Hwf. simpl. nia.
Qed.

(** The slice [data[:, :, k]] has the spatial shape of the cube and holds
    [data[i, j, k]] at [(i, j)]. *)
Lemma band_ok d (k : nat) :
  k < dim2 d →
  ∃ r, band d (Z.of_nat k) = Ok r ∧ nrows r = dim0 d ∧ ncols r = dim1 d ∧
       (wf_cube d → wf_ndarray r ∧ ∀ i j, get2 r i j = get3 d i j k).
Proof.
  intros Hk. unfold band.
  rewrite normalize_index_in_range by lia. rewrite Nat2Z.id. simpl.
  eexists. split; [done|]. split; [done|]. split; [done|].
  intros Hwf. pose proof (band_cells_some d k Hwf Hk) as Hsome.
  split.
  - unfold wf_ndarray. simpl. by apply omap_seq_length.
  - intros i j. unfold get2, get3. simpl.
    destruct (decide (i < dim0 d ∧ j < dim1 d)) as [[Hi Hj]|Hn].
    + rewrite decide_True by done.
      rewrite omap_seq_lookup by (done || nia). done.
    + rewrite decide_False by tauto. done.
Qed.

Lemma get2_ufunc1 (f : A → B) a i j :
  get2 (ufunc1 f a) i j = f <$> get2 a i j.
Proof.
  unfold get2, ufunc1. simpl. case_decide; [|done].
  by rewrite list_lookup_fmap.
Qed.

Lemma wf_ufunc1 (f : A → B) a : wf_ndarray a → wf_ndarray (ufunc1 f a).
Proof. unfold wf_ndarray, ufunc1. simpl. by rewrite length_fmap. Qed.

(** On arrays of one shape a binary ufunc works element by element. *)
Lemma ufunc2_same_shape (f : A → B → C) a (b : ndarray B) :
  shape a = shape b →
  ufunc2 f a b = Ok (mk_ndarray (nrows a) (ncols a) (zip_with f (flat a) (flat b))).
Proof. intros Hs. unfold ufunc2. by rewrite decide_True. Qed.

Lemma get2_zip_with (f : A → B → C) a (b : ndarray B) i j :
  shape a = shape b →
  get2 (mk_ndarray (nrows a) (ncols a) (zip_with f (flat a) (flat b))) i j
  = (x ← get2 a i j; y ← get2 b i j; Some (f x y)).
Proof.
  intros Hs. injection Hs as Hr Hc. unfold get2. simpl.
  rewrite <- Hr, <- Hc. case_decide; [|done].
  rewrite lookup_zip_with. done.
Qed.

Lemma wf_zip_with (f : A → B → C) a (b : ndarray B) :
  wf_ndarray a → wf_ndarray b → shape a = shape b →
  wf_ndarray (mk_ndarray (nrows a) (ncols a) (zip_with f (flat a) (flat b))).
Proof.
  unfold wf_ndarray. intros Ha Hb Hs. injection Hs as Hr Hc. simpl.
  rewrite length_zip_with. lia.
Qed.

End array_facts.

(** ** Facts about scalars *)


Section scalar_facts.
Local Open Scope Qc_scope.
Implicit Types (x y w : npfloat) (a b v m : Qc).

(** Closed comparisons of rationals are decided by evaluation. *)
Local Ltac qc_closed :=
  repeat split; first [reflexivity | by vm_compute | by apply bool_decide_unpack].

Lemma Qc_sub_nonneg a b : a ≤ b ↔ 0 ≤ b - a.
Proof. apply Qcle_minus_iff. Qed.

Lemma Qc_one_minus_bounds m : 0 ≤ m → m ≤ 1 → 0 ≤ 1 - m ∧ 1 - m ≤ 1.
Proof.
  intros H0 H1. split.
  - by apply (proj1 (Qc_sub_nonneg m 1)).
  - apply (proj2 (Qc_sub_nonneg (1 - m) 1)).
    by replace (1 - (1 - m)) with m by ring.
Qed.


Lemma clip_clamp01 x : clip x c_0 c_1 = clamp01 x.
Proof.
  destruct x as [q| | |]; try reflexivity.
  unfold clip, clamp01, maximum, minimum, greater. simpl.
  destruct (bool_decide (q < Q2Qc (0 # 1))) eqn:E0; simpl; [reflexivity|].
  destruct (bool_decide (Q2Qc (1 # 1) < q)); reflexivity.
Qed.

(** Unless it is NaN, the clamped value is a number of [0, 1]. *)
Lemma clip_unit_interval w :
  isnan w = false → ∃ m, clip w c_0 c_1 = Fin m ∧ 0 ≤ m ∧ m ≤ 1.
Proof.
  intros Hw. rewrite clip_clamp01.
  destruct w as [q| | |]; try discriminate.
  - unfold clamp01, greater, less, c_0, c_1, lit.
    destruct (bool_decide (q < Q2Qc (0 # 1))) eqn:E0.
    { exists 0. qc_closed. }
    destruct (bool_decide (Q2Qc (1 # 1) < q)) eqn:E1.
    { exists 1. qc_closed. }
    exists q. split; [done|].
    apply bool_decide_eq_false in E0, E1.
    split; by apply Qcnot_lt_le.
  - exists 1. qc_closed.
  - exists 0. qc_closed.
Qed.

Lemma clip_ge_one w : greater_equal w c_1 = true → clip w c_0 c_1 = c_1.
Proof.
  intros Hw. rewrite clip_clamp01.
  destruct w as [q| | |]; try discriminate; [|reflexivity].
  unfold greater_equal, less_equal, c_1, lit in Hw.
  apply bool_decide_eq_true in Hw.
  unfold clamp01, greater, less, c_0, c_1, lit.
  rewrite bool_decide_eq_false_2.
  2:{ apply Qcle_not_lt. by trans (Q2Qc (1 # 1)). }
  destruct (bool_decide (Q2Qc (1 # 1) < q)) eqn:E1; [done|].
  apply bool_decide_eq_false in E1. f_equal.
  apply Qcle_antisym; [by apply Qcnot_lt_le|done].
Qed.

Lemma clip_le_zero w : less_equal w c_0 = true → clip w c_0 c_1 = c_0.
Proof.
  intros Hw. rewrite clip_clamp01.
  destruct w as [q| | |]; try discriminate; [|reflexivity].
  unfold less_equal, c_0, lit in Hw. apply bool_decide_eq_true in Hw.
  unfold clamp01, greater, less, c_0, c_1, lit.
  destruct (bool_decide (q < Q2Qc (0 # 1))) eqn:E0; [done|].
  apply bool_decide_eq_false in E0.
  rewrite bool_decide_eq_false_2.
  2:{ apply Qcle_not_lt. by trans (Q2Qc (0 # 1)). }
  f_equal. apply Qcle_antisym; [done|by apply Qcnot_lt_le].
Qed.

Lemma multiply_one x : multiply x c_1 = x.
Proof.
  destruct x as [q| | |]; try reflexivity.
  unfold multiply, c_1, lit. f_equal. apply Qcmult_1_r.
Qed.

Lemma multiply_fin_zero v : multiply (Fin v) c_0 = c_0.
Proof. unfold multiply, c_0, lit. f_equal. apply Qcmult_0_r. Qed.

Lemma subtract_antisym x y : subtract x y = negative (subtract y x).
Proof.
  destruct x, y; try reflexivity. simpl. f_equal. ring.
Qed.

Lemma add_comm x y : add x y = add y x.
Proof. destruct x, y; try reflexivity. simpl. f_equal. ring. Qed.

Lemma Qc_opp_pos a : a ≠ 0 → bool_decide (0 < - a) = negb (bool_decide (0 < a)).
Proof.
  intros Ha. destruct (bool_decide (0 < a)) eqn:E; simpl.
  - apply bool_decide_eq_true in E. apply bool_decide_eq_false.
    apply Qcle_not_lt. apply (proj2 (Qc_sub_nonneg (- a) 0)).
    replace (0 - - a) with a by ring. by apply Qclt_le_weak.
  - apply bool_decide_eq_false in E. apply bool_decide_eq_true.
    apply Qcnot_lt_le in E. apply Qclt_nge. intros Hle.
    apply Ha, Qcle_antisym; [done|].
    apply (proj1 (Qc_sub_nonneg (- a) 0)) in Hle.
    by replace (0 - - a) with a in Hle by ring.
Qed.

Lemma true_divide_negative x y :
  true_divide (negative x) y = negative (true_divide x y).
Proof.
  destruct x as [a| | |], y as [b| | |]; try reflexivity; simpl.
  - destruct (decide (b = 0)) as [->|Hb].
    + destruct (decide (a = 0)) as [->|Ha].
      * by rewrite decide_True.
      * rewrite decide_False.
        2:{ intros H. apply Ha. rewrite <- (Qcopp_involutive a), H. done. }
        rewrite Qc_opp_pos by done. by destruct (bool_decide (0 < a)).
    + simpl. f_equal. by field.
  - by destruct (bool_decide (b < 0)).
  - by destruct (bool_decide (b < 0)).
Qed.

End scalar_facts.

(** ** The normalized difference *)


Section index_facts.
Implicit Types (a b : ndarray npfloat) (d : cube npfloat).

Lemma zip_with_fuse {X Y U V V' W} (f : U → V' → W) (g : X → Y → U)
    (g' : X → Y → V) (h : V → V') (l : list X) (k : list Y) :
  zip_with f (zip_with g l k) (h <$> zip_with g' l k)
  = zip_with (λ x y, f (g x y) (h (g' x y))) l k.
Proof.
  revert k. induction l as [|x l IH]; intros [|y k]; simpl; try done.
  by rewrite IH.
Qed.

Lemma zip_with_swap_fmap {X Y U} (f : X → Y → U) (g : Y → X → U)
    (h : U → U) (l : list X) (k : list Y) :
  (∀ x y, f x y = h (g y x)) →
  zip_with f l k = h <$> zip_with g k l.
Proof.
  intros Hfg. revert k. induction l as [|x l IH]; intros [|y k]; simpl; try done.
  by rewrite Hfg, IH.
Qed.

Lemma normalized_difference_same_shape a b :
  shape a = shape b →
  normalized_difference a b
  = Ok (mk_ndarray (nrows a) (ncols a) (zip_with nd_pixel (flat a) (flat b))).
Proof.
  intros Hs. unfold normalized_difference.
  rewrite !ufunc2_same_shape by done. simpl.
  rewrite ufunc2_same_shape by done. simpl. do 2 f_equal.
  apply zip_with_fuse.
Qed.

Lemma normalized_difference_ok a b :
  shape a = shape b →
  ∃ r, normalized_difference a b = Ok r ∧
       nrows r = nrows a ∧ ncols r = ncols a ∧
       (wf_ndarray a → wf_ndarray b → wf_ndarray r) ∧
       ∀ i j, get2 r i j = (x ← get2 a i j; y ← get2 b i j; Some (nd_pixel x y)).
Proof.
  intros Hs. rewrite normalized_difference_same_shape by done.
  eexists. split; [done|]. split; [done|]. split; [done|]. split.
  - intros Ha Hb. by apply wf_zip_with.
  - intros i j. by apply get2_zip_with.
Qed.

Lemma calculate_ndvi_unfold d :
  calculate_ndvi d
  = (let! red_band := band d 50 in
     let! nir_band := band d 90 in
     normalized_difference nir_band red_band).
Proof. reflexivity. Qed.

Lemma calculate_ndwi_unfold d :
  calculate_ndwi d
  = (let! nir_band := band d 90 in
     let! swir_band := band d 150 in
     normalized_difference nir_band swir_band).
Proof. reflexivity. Qed.

(** With bands 50 and 90 present, [calculate_ndvi] returns a raster of
    the cube's spatial shape. *)
Lemma calculate_ndvi_ok d :
  90 < dim2 d →
  ∃ r, calculate_ndvi d = Ok r ∧ nrows r = dim0 d ∧ ncols r = dim1 d ∧
       (wf_cube d → wf_ndarray r ∧
          ∀ i j, get2 r i j
                 = (nir ← get3 d i j 90; red ← get3 d i j 50;
                    Some (nd_pixel nir red))).
Proof.
  intros Hb. rewrite calculate_ndvi_unfold.
  destruct (band_ok d 50 ltac:(lia)) as (red & Hred & Hr1 & Hc1 & Hwf1).
  destruct (band_ok d 90 ltac:(lia)) as (nir & Hnir & Hr2 & Hc2 & Hwf2).
  change (Z.of_nat 50) with 50%Z in Hred.
  change (Z.of_nat 90) with 90%Z in Hnir.
  rewrite Hred, Hnir. simpl.
  assert (shape nir = shape red) as Hs by (unfold shape; congruence).
  destruct (normalized_difference_ok nir red Hs) as (r & Hr & Hnr & Hnc & Hwf & Hpx).
  exists r. split; [done|]. split; [congruence|]. split; [congruence|].
  intros Hd. destruct (Hwf1 Hd) as [Hw1 Hg1], (Hwf2 Hd) as [Hw2 Hg2].
  split; [by apply Hwf|].
  intros i j. by rewrite Hpx, Hg1, Hg2.
Qed.

Lemma calculate_ndwi_ok d :
  150 < dim2 d →
  ∃ r, calculate_ndwi d = Ok r ∧ nrows r = dim0 d ∧ ncols r = dim1 d ∧
       (wf_cube d → wf_ndarray r ∧
          ∀ i j, get2 r i j
                 = (nir ← get3 d i j 90; swir ← get3 d i j 150;
                    Some (nd_pixel nir swir))).
Proof.
  intros Hb. rewrite calculate_ndwi_unfold.
  destruct (band_ok d 90 ltac:(lia)) as (nir & Hnir & Hr1 & Hc1 & Hwf1).
  destruct (band_ok d 150 ltac:(lia)) as (swir & Hswir & Hr2 & Hc2 & Hwf2).
  change (Z.of_nat 90) with 90%Z in Hnir.
  change (Z.of_nat 150) with 150%Z in Hswir.
  rewrite Hnir, Hswir. simpl.
  assert (shape nir = shape swir) as Hs by (unfold shape; congruence).
  destruct (normalized_difference_ok nir swir Hs) as (r & Hr & Hnr & Hnc & Hwf & Hpx).
  exists r. split; [done|]. split; [congruence|]. split; [congruence|].
  intros Hd. destruct (Hwf1 Hd) as [Hw1 Hg1], (Hwf2 Hd) as [Hw2 Hg2].
  split; [by apply Hwf|].
  intros i j. by rewrite Hpx, Hg1, Hg2.
Qed.


Lemma create_health_map_ok a b :
  shape a = shape b →
  ∃ h, create_health_map a b = Ok h ∧
       nrows h = nrows a ∧ ncols h = ncols a ∧
       (wf_ndarray a → wf_ndarray b → wf_ndarray h) ∧
       ∀ i j, get2 h i j
              = (v ← get2 a i j; w ← get2 b i j; Some (health_pixel v w)).
Proof.
  intros Hs. unfold create_health_map.
  rewrite ufunc2_same_shape by done.
  eexists. split; [done|]. split; [done|]. split; [done|]. split.
  - intros Ha Hb. apply wf_zip_with; [done| |done].
    by do 2 apply wf_ufunc1.
  - intros i j.
    rewrite (get2_zip_with multiply a
               (ufunc1 (λ x, subtract c_1 x) (ufunc1 (λ x, clip x c_0 c_1) b)))
      by done.
    rewrite !get2_ufunc1.
    destruct (get2 a i j), (get2 b i j); done.
Qed.

End index_facts.


(** ** C1: the fused score *)

(** C1. For index rasters of one shape, [create_health_map] returns a raster
    of that shape whose value at every pixel is the vegetation index times
    one minus the moisture index clamped to [0, 1]. *)
Theorem create_health_map_formula (ndvi ndwi : ndarray npfloat) :
  shape ndvi = shape ndwi →
  ∃ h, create_health_map ndvi ndwi = Ok h ∧ shape h = shape ndvi ∧
       ∀ i j v w, get2 ndvi i j = Some v → get2 ndwi i j = Some w →
                  get2 h i j = Some (multiply v (subtract c_1 (clamp01 w))).
Proof.
  intros Hs.
  destruct (create_health_map_ok ndvi ndwi Hs) as (h & Hh & Hr & Hc & _ & Hpx).
  exists h. split; [done|]. split; [unfold shape; congruence|].
  intros i j v w Hv Hw. rewrite Hpx, Hv, Hw. simpl.
  unfold health_pixel. by rewrite clip_clamp01.
Qed.

Lemma create_health_map_formula_witness :
  shape sample_ndvi = shape sample_ndwi ∧
  ∃ h, create_health_map sample_ndvi sample_ndwi = Ok h ∧
       shape h = shape sample_ndvi ∧
       ∀ i j v w, get2 sample_ndvi i j = Some v → get2 sample_ndwi i j = Some w →
                  get2 h i j = Some (multiply v (subtract c_1 (clamp01 w))).
Proof.
  split; [reflexivity|].
  apply (create_health_map_formula sample_ndvi sample_ndwi). reflexivity.
Defined.

(** ** C3: both indices are the normalized difference *)

Lemma get2_in_range {A} (a : ndarray A) (i j : nat) :
  wf_ndarray a → i < nrows a → j < ncols a → is_Some (get2 a i j).
Proof.
  intros Hwf Hi Hj. unfold get2. rewrite decide_True by done.
  apply lookup_lt_is_Some. rewrite Hwf.
  pose proof (Nat.mul_le_mono_r (S i) (nrows a) (ncols a) Hi). lia.
Qed.

Lemma get3_in_range {A} (d : cube A) (i j k : nat) :
  wf_cube d → i < dim0 d → j < dim1 d → k < dim2 d → is_Some (get3 d i j k).
Proof.
  intros Hwf Hi Hj Hk. unfold get3. rewrite decide_True by done.
  apply lookup_lt_is_Some. rewrite Hwf.
  pose proof (Nat.mul_le_mono_r (S i) (dim0 d) (dim1 d) Hi).
  pose proof (Nat.mul_le_mono_r (S (i * dim1 d + j)) (dim0 d * dim1 d) (dim2 d)
                ltac:(lia)).
  lia.
Qed.

(** C3. The normalized difference of two well-formed rasters of one shape
    is a raster of that shape which holds [(x - y) / (x + y + 1e-10)],
    unclamped, at every pixel, [x] and [y] being the values of the two
    rasters there.  On a cube with at least 151 bands [calculate_ndvi] is
    this operation on the slices of bands 90 and 50 and [calculate_ndwi] on
    those of bands 90 and 150: at every pixel [(i, j)] of the cube the two
    indices are computed from the samples [data[i, j, 90]], [data[i, j, 50]]
    and [data[i, j, 150]]. *)
Theorem indices_are_normalized_differences (data : cube npfloat) :
  wf_cube data → 150 < dim2 data →
  (∀ a b : ndarray npfloat,
     wf_ndarray a → wf_ndarray b → shape a = shape b →
     ∃ r, normalized_difference a b = Ok r ∧ shape r = shape a ∧
          ∀ i j, i < nrows a → j < ncols a →
            ∃ x y, get2 a i j = Some x ∧ get2 b i j = Some y ∧
                   get2 r i j
                   = Some (true_divide (subtract x y) (add (add x y) c_1e_10))) ∧
  ∃ red nir swir ndvi ndwi,
    band data 50 = Ok red ∧ band data 90 = Ok nir ∧ band data 150 = Ok swir ∧
    calculate_ndvi data = Ok ndvi ∧ normalized_difference nir red = Ok ndvi ∧
    calculate_ndwi data = Ok ndwi ∧ normalized_difference nir swir = Ok ndwi ∧
    shape ndvi = (dim0 data, dim1 data) ∧ shape ndwi = (dim0 data, dim1 data) ∧
    ∀ i j, i < dim0 data → j < dim1 data →
      ∃ x y z,
        get3 data i j 90 = Some x ∧ get3 data i j 50 = Some y ∧
        get3 data i j 150 = Some z ∧
        get2 nir i j = Some x ∧ get2 red i j = Some y ∧ get2 swir i j = Some z ∧
        get2 ndvi i j
        = Some (true_divide (subtract x y) (add (add x y) c_1e_10)) ∧
        get2 ndwi i j
        = Some (true_divide (subtract x z) (add (add x z) c_1e_10)).
Proof.
  intros Hwf Hb. split.
  - intros a b Ha Hwb Hs.
    destruct (normalized_difference_ok a b Hs) as (r & Hr & Hnr & Hnc & _ & Hpx).
    exists r. split; [done|]. split; [unfold shape; congruence|].
    intros i j Hi Hj. injection Hs as Hrows Hcols.
    destruct (get2_in_range a i j Ha Hi Hj) as [x Hx].
    destruct (get2_in_range b i j Hwb ltac:(lia) ltac:(lia)) as [y Hy].
    exists x, y. split; [done|]. split; [done|].
    by rewrite Hpx, Hx, Hy.
  - destruct (band_ok data 50 ltac:(lia)) as (red & Hred & Hr1 & Hc1 & Hb1).
    destruct (band_ok data 90 ltac:(lia)) as (nir & Hnir & Hr2 & Hc2 & Hb2).
    destruct (band_ok data 150 ltac:(lia)) as (swir & Hswir & Hr3 & Hc3 & Hb3).
    destruct (Hb1 Hwf) as [_ Hg1], (Hb2 Hwf) as [_ Hg2], (Hb3 Hwf) as [_ Hg3].
    change (Z.of_nat 50) with 50%Z in Hred.
    change (Z.of_nat 90) with 90%Z in Hnir.
    change (Z.of_nat 150) with 150%Z in Hswir.
    assert (shape nir = shape red) as Hs1 by (unfold shape; congruence).
    assert (shape nir = shape swir) as Hs2 by (unfold shape; congruence).
    destruct (normalized_difference_ok nir red Hs1)
      as (ndvi & Hv & Hvr & Hvc & _ & Hvp).
    destruct (normalized_difference_ok nir swir Hs2)
      as (ndwi & Hw & Hwr & Hwc & _ & Hwp).
    exists red, nir, swir, ndvi, ndwi.
    rewrite calculate_ndvi_unfold, calculate_ndwi_unfold, Hred, Hnir, Hswir. simpl.
    repeat (split; [first [done | unfold shape; congruence]|]).
    intros i j Hi Hj.
    destruct (get3_in_range data i j 90 Hwf Hi Hj ltac:(lia)) as [x Hx].
    destruct (get3_in_range data i j 50 Hwf Hi Hj ltac:(lia)) as [y Hy].
    destruct (get3_in_range data i j 150 Hwf Hi Hj ltac:(lia)) as [z Hz].
    exists x, y, z.
    rewrite Hvp, Hwp, Hg1, Hg2, Hg3, Hx, Hy, Hz. done.
Qed.

Lemma indices_are_normalized_differences_witness :
  wf_cube scenario_cube ∧ 150 < dim2 scenario_cube ∧
  (∀ a b : ndarray npfloat,
     wf_ndarray a → wf_ndarray b → shape a = shape b →
     ∃ r, normalized_difference a b = Ok r ∧ shape r = shape a ∧
          ∀ i j, i < nrows a → j < ncols a →
            ∃ x y, get2 a i j = Some x ∧ get2 b i j = Some y ∧
                   get2 r i j
                   = Some (true_divide (subtract x y) (add (add x y) c_1e_10))) ∧
  ∃ red nir swir ndvi ndwi,
    band scenario_cube 50 = Ok red ∧ band scenario_cube 90 = Ok nir ∧
    band scenario_cube 150 = Ok swir ∧
    calculate_ndvi scenario_cube = Ok ndvi ∧
    normalized_difference nir red = Ok ndvi ∧
    calculate_ndwi scenario_cube = Ok ndwi ∧
    normalized_difference nir swir = Ok ndwi ∧
    shape ndvi = (dim0 scenario_cube, dim1 scenario_cube) ∧
    shape ndwi = (dim0 scenario_cube, dim1 scenario_cube) ∧
    ∀ i j, i < dim0 scenario_cube → j < dim1 scenario_cube →
      ∃ x y z,
        get3 scenario_cube i j 90 = Some x ∧ get3 scenario_cube i j 50 = Some y ∧
        get3 scenario_cube i j 150 = Some z ∧
        get2 nir i j = Some x ∧ get2 red i j = Some y ∧ get2 swir i j = Some z ∧
        get2 ndvi i j
        = Some (true_divide (subtract x y) (add (add x y) c_1e_10)) ∧
        get2 ndwi i j
        = Some (true_divide (subtract x z) (add (add x z) c_1e_10)).
Proof.
  split; [reflexivity|]. split; [simpl; lia|].
  apply (indices_are_normalized_differences scenario_cube); [reflexivity|simpl; lia].
Defined.

(** ** C4: band indices out of range *)

Lemma calculate_ndvi_missing_band (d : cube npfloat) :
  dim2 d ≤ 90 → calculate_ndvi d = Raise IndexError.
Proof.
  intros Hd. unfold calculate_ndvi.
  destruct (decide (dim2 d ≤ 50)) as [H50|H50].
  - rewrite band_too_large by lia. done.
  - destruct (band_ok d 50 ltac:(lia)) as (red & Hred & _).
    change (Z.of_nat 50) with 50%Z in Hred. rewrite Hred. simpl.
    rewrite band_too_large by lia. done.
Qed.

Lemma calculate_ndwi_missing_band (d : cube npfloat) :
  dim2 d ≤ 150 → calculate_ndwi d = Raise IndexError.
Proof.
  intros Hd. unfold calculate_ndwi.
  destruct (decide (dim2 d ≤ 90)) as [H90|H90].
  - rewrite band_too_large by lia. done.
  - destruct (band_ok d 90 ltac:(lia)) as (nir & Hnir & _).
    change (Z.of_nat 90) with 90%Z in Hnir. rewrite Hnir. simpl.
    rewrite band_too_large by lia. done.
Qed.

Lemma main_missing_band (d : cube npfloat) :
  dim2 d ≤ 150 → main d = Raise IndexError.
Proof.
  intros Hd. unfold main.
  destruct (decide (dim2 d ≤ 90)) as [H90|H90].
  - rewrite calculate_ndvi_missing_band by done. done.
  - destruct (calculate_ndvi_ok d ltac:(lia)) as (ndvi & Hv & _).
    rewrite Hv. simpl. rewrite calculate_ndwi_missing_band by done. done.
Qed.

(** C4. A band index [k] that is not below the cube's band dimension makes
    the slice [data[:, :, k]] raise [IndexError]; the index is neither
    wrapped nor clamped.  So a cube with fewer than 151 bands (band 150
    missing) makes [calculate_ndwi], and with it [main], raise [IndexError],
    and a cube that lacks band 90 makes [calculate_ndvi] raise it too. *)
Theorem band_index_out_of_range (data : cube npfloat) (k : Z) :
  (Z.of_nat (dim2 data) ≤ k)%Z →
  band data k = Raise IndexError ∧
  ((k ≤ 150)%Z → calculate_ndwi data = Raise IndexError ∧
                 main data = Raise IndexError) ∧
  ((k ≤ 90)%Z → calculate_ndvi data = Raise IndexError).
Proof.
  intros Hk. split; [by apply band_too_large|]. split.
  - intros Hle. split.
    + apply calculate_ndwi_missing_band. lia.
    + apply main_missing_band. lia.
  - intros Hle. apply calculate_ndvi_missing_band. lia.
Qed.

Lemma band_index_out_of_range_witness :
  (Z.of_nat (dim2 scenario_cube) ≤ 200)%Z ∧
  band scenario_cube 200 = Raise IndexError ∧
  ((200 ≤ 150)%Z → calculate_ndwi scenario_cube = Raise IndexError ∧
                   main scenario_cube = Raise IndexError) ∧
  ((200 ≤ 90)%Z → calculate_ndvi scenario_cube = Raise IndexError).
Proof.
  split; [simpl; lia|].
  apply (band_index_out_of_range scenario_cube 200). simpl. lia.
Defined.

(** ** C6: antisymmetry of the normalized difference *)

Lemma nd_pixel_antisym (x y : npfloat) :
  nd_pixel x y = negative (nd_pixel y x).
Proof.
  unfold nd_pixel.
  rewrite (subtract_antisym x y), (add_comm x y).
  apply true_divide_negative.
Qed.

(** C6. For rasters of one shape, [normalized_difference(a, b)] is the
    elementwise negation of [normalized_difference(b, a)]: the two
    denominators [a + b + 1e-10] and [b + a + 1e-10] coincide and the
    numerators are opposite.  A pixel where the quotient is 0/0 is NaN on
    both sides. *)
Theorem normalized_difference_antisymmetric (a b : ndarray npfloat) :
  shape a = shape b →
  ∃ r s, normalized_difference a b = Ok r ∧
         normalized_difference b a = Ok s ∧
         r = ufunc1 negative s ∧
         ∀ i j x y, get2 a i j = Some x → get2 b i j = Some y →
           get2 r i j = Some (nd_pixel x y) ∧
           get2 s i j = Some (nd_pixel y x) ∧
           nd_pixel x y = negative (nd_pixel y x).
Proof.
  intros Hs. injection Hs as Hr Hc.
  assert (shape a = shape b) as Hab by (unfold shape; congruence).
  assert (shape b = shape a) as Hba by (unfold shape; congruence).
  destruct (normalized_difference_ok a b Hab) as (r & Hab' & _ & _ & _ & Hrp).
  destruct (normalized_difference_ok b a Hba) as (s & Hba' & _ & _ & _ & Hsp).
  exists r, s. split; [done|]. split; [done|]. split.
  - rewrite normalized_difference_same_shape in Hab', Hba' by done.
    injection Hab' as <-. injection Hba' as <-.
    unfold ufunc1. simpl. rewrite Hr, Hc. f_equal.
    apply zip_with_swap_fmap. apply nd_pixel_antisym.
  - intros i j x y Hx Hy. rewrite Hrp, Hsp, Hx, Hy. simpl.
    split; [done|]. split; [done|]. apply nd_pixel_antisym.
Qed.

Lemma normalized_difference_antisymmetric_witness :
  shape sample_ndvi = shape sample_ndwi ∧
  ∃ r s, normalized_difference sample_ndvi sample_ndwi = Ok r ∧
         normalized_difference sample_ndwi sample_ndvi = Ok s ∧
         r = ufunc1 negative s ∧
         ∀ i j x y, get2 sample_ndvi i j = Some x → get2 sample_ndwi i j = Some y →
           get2 r i j = Some (nd_pixel x y) ∧
           get2 s i j = Some (nd_pixel y x) ∧
           nd_pixel x y = negative (nd_pixel y x).
Proof.
  split; [reflexivity|].
  apply (normalized_difference_antisymmetric sample_ndvi sample_ndwi). reflexivity.
Defined.

(** ** C9: cancelling bands *)

Section degenerate_pixels.
Local Open Scope Qc_scope.

Local Ltac qc_to_q :=
  unfold Qcle, Qclt, Qcdiv, Qcminus in *;
  cbn [this Q2Qc Qcplus Qcmult Qcopp] in *;
  rewrite ?Qred_correct in *.







End degenerate_pixels.

(** ** C7 and C10: the fused score against the vegetation index *)

Section fused_score.
Local Open Scope Qc_scope.


Lemma health_pixel_saturated (v : Qc) (w : npfloat) :
  greater_equal w c_1 = true → health_pixel (Fin v) w = c_0.
Proof.
  intros Hw. unfold health_pixel. rewrite clip_ge_one by done.
  replace (subtract c_1 c_1) with c_0; [apply multiply_fin_zero|].
  unfold c_0, c_1, lit. simpl. f_equal; ring.
Qed.

Lemma health_pixel_dry (v w : npfloat) :
  less_equal w c_0 = true → health_pixel v w = v.
Proof.
  intros Hw. unfold health_pixel. rewrite clip_le_zero by done.
  replace (subtract c_1 c_0) with c_1; [apply multiply_one|].
  unfold c_0, c_1, lit. simpl. f_equal; ring.
Qed.






(** C10, as the code has it.  For index rasters of one shape: at a pixel
    where the moisture index is at least 1 and the vegetation index is
    finite, the fused score is 0; at a pixel where the moisture index is at
    most 0, the fused score is the vegetation index itself. *)
Theorem health_saturated_or_dry (ndvi ndwi : ndarray npfloat) (i j : nat)
    (v w : npfloat) :
  shape ndvi = shape ndwi →
  get2 ndvi i j = Some v → get2 ndwi i j = Some w →
  ∃ h x, create_health_map ndvi ndwi = Ok h ∧ get2 h i j = Some x ∧
         (greater_equal w c_1 = true → isfinite v = true → x = c_0) ∧
         (less_equal w c_0 = true → x = v).
Proof.
  intros Hs Hv Hw.
  destruct (create_health_map_ok ndvi ndwi Hs) as (h & Hh & _ & _ & _ & Hpx).
  exists h, (health_pixel v w). split; [done|]. split.
  - rewrite Hpx, Hv, Hw. done.
  - split.
    + intros Hge Hfin. destruct v as [q| | |]; try discriminate.
      by apply health_pixel_saturated.
    + intros Hle. by apply health_pixel_dry.
Qed.

Lemma health_saturated_or_dry_witness :
  shape sample_ndvi = shape sample_ndwi ∧
  get2 sample_ndvi 0 1 = Some (lit 5 10) ∧
  get2 sample_ndwi 0 1 = Some (lit 15 10) ∧
  ∃ h x, create_health_map sample_ndvi sample_ndwi = Ok h ∧
         get2 h 0 1 = Some x ∧
         (greater_equal (lit 15 10) c_1 = true →
          isfinite (lit 5 10) = true → x = c_0) ∧
         (less_equal (lit 15 10) c_0 = true → x = lit 5 10).
Proof.
  split; [reflexivity|]. split; [reflexivity|]. split; [reflexivity|].
  apply (health_saturated_or_dry sample_ndvi sample_ndwi 0 1 (lit 5 10) (lit 15 10));
    reflexivity.
Defined.

(** C10 fails as stated: in [saturating_cube] the moisture index of the
    pixel is 1, the vegetation index is +inf, and the fused score is
    inf * (1 - 1) = NaN instead of 0. *)
Lemma health_saturated_counterexample :
  ∃ ndvi ndwi h w,
    calculate_ndvi saturating_cube = Ok ndvi ∧
    calculate_ndwi saturating_cube = Ok ndwi ∧
    shape ndvi = shape ndwi ∧
    create_health_map ndvi ndwi = Ok h ∧
    get2 ndwi 0 0 = Some w ∧ greater_equal w c_1 = true ∧
    get2 ndvi 0 0 = Some PInf ∧
    get2 h 0 0 = Some NaN ∧ get2 h 0 0 ≠ Some c_0.
Proof.
  eexists _, _, _, _.
  split; [vm_compute; reflexivity|].
  split; [vm_compute; reflexivity|].
  split; [reflexivity|].
  split; [vm_compute; reflexivity|].
  split; [reflexivity|].
  split; [by vm_compute|].
  split; [reflexivity|].
  split; [reflexivity|discriminate].
Qed.

End fused_score.

(** ** C2 and C5: the threshold percentages *)

Section threshold_summary.
Local Open Scope Qc_scope.

Lemma of_nat_zero : lit 0 1 = of_nat 0.
Proof. unfold lit, of_nat. f_equal. by apply Qc_is_canon. Qed.

Lemma of_nat_succ (k : nat) : add (of_nat k) (lit 1 1) = of_nat (S k).
Proof.
  unfold of_nat, lit. simpl. f_equal.
  rewrite Nat2Z.inj_succ, <- Z.add_1_r, Z2Qc_inj_add, Z2Qc_inj_1. done.
Qed.

Lemma of_nat_keep (k : nat) : add (of_nat k) (lit 0 1) = of_nat k.
Proof. unfold of_nat, lit. simpl. f_equal. apply Qcplus_0_r. Qed.

(** Summing a boolean array as floats counts its true entries. *)
Lemma sum_of_tests (p : npfloat → bool) (l : list npfloat) (k : nat) :
  foldl add (of_nat k) (of_bool <$> (p <$> l))
  = of_nat (k + length (List.filter p l)).
Proof.
  revert k. induction l as [|x l IH]; intros k.
  - simpl. by rewrite Nat.add_0_r.
  - change (foldl add (add (of_nat k) (of_bool (p x))) (of_bool <$> (p <$> l))
            = of_nat (k + length (if p x then x :: List.filter p l
                                  else List.filter p l))).
    destruct (p x); cbn [of_bool length].
    + rewrite of_nat_succ, IH. f_equal. lia.
    + rewrite of_nat_keep, IH. done.
Qed.

Lemma mean_of_test (p : npfloat → bool) (h : ndarray npfloat) :
  mean_bool (ufunc1 p h)
  = true_divide (of_nat (count_pixels p h)) (of_nat (size h)).
Proof.
  unfold mean_bool, mean, ufunc1, size, count_pixels. simpl.
  by rewrite of_nat_zero, sum_of_tests.
Qed.

(** C2, as the code has it.  The healthy-area percentage is the fraction of
    pixels whose score is strictly greater than 0.6, times 100, and the
    stressed-area percentage is the fraction of pixels whose score is less
    than 0.3, times 100. *)
Theorem threshold_percentages (health_map : ndarray npfloat) :
  healthy_area health_map = percentage_of (λ x, greater x c_0_6) health_map ∧
  stressed_area health_map = percentage_of (λ x, less x c_0_3) health_map.
Proof.
  unfold healthy_area, stressed_area, percentage_of.
  by rewrite !mean_of_test.
Qed.

(** C2 fails as stated: the only pixel of [threshold_raster] has the score
    0.6, which is greater than or equal to 0.6, so the fraction of pixels
    with score ≥ 0.6 is 100 percent; the code tests [> 0.6] and reports 0. *)
Lemma healthy_threshold_counterexample :
  get2 threshold_raster 0 0 = Some c_0_6 ∧
  greater_equal c_0_6 c_0_6 = true ∧
  percentage_of (λ x, greater_equal x c_0_6) threshold_raster = c_100 ∧
  healthy_area threshold_raster = c_0 ∧
  healthy_area threshold_raster
  ≠ percentage_of (λ x, greater_equal x c_0_6) threshold_raster.
Proof.
  assert (percentage_of (λ x, greater_equal x c_0_6) threshold_raster = c_100) as H1.
  { vm_compute. first [reflexivity | f_equal; by apply Qc_is_canon]. }
  assert (healthy_area threshold_raster = c_0) as H2.
  { vm_compute. first [reflexivity | f_equal; by apply Qc_is_canon]. }
  split; [reflexivity|]. split; [by vm_compute|].
  split; [done|]. split; [done|].
  rewrite H1, H2. discriminate.
Qed.

(** A score cannot be both above 0.6 and below 0.3. *)
Lemma thresholds_disjoint (x : npfloat) :
  greater x c_0_6 = true → less x c_0_3 = false.
Proof.
  destruct x as [q| | |]; try done.
  unfold greater, less, c_0_6, c_0_3, lit.
  intros H6. apply bool_decide_eq_true in H6. apply bool_decide_eq_false.
  intros H3. by pose proof (Qclt_trans _ _ _ H6 H3).
Qed.

Lemma disjoint_counts (p q : npfloat → bool) (l : list npfloat) :
  (∀ x, p x = true → q x = false) →
  (length (List.filter p l) + length (List.filter q l) ≤ length l)%nat.
Proof.
  intros Hpq. induction l as [|x l IH]; simpl; [done|].
  destruct (p x) eqn:Hp.
  - rewrite (Hpq x Hp). simpl. lia.
  - destruct (q x); simpl; lia.
Qed.

Lemma percentage_value (k n : nat) :
  (0 < n)%nat →
  multiply (true_divide (of_nat k) (of_nat n)) c_100
  = Fin (Qc_of_Z (Z.of_nat k) / Qc_of_Z (Z.of_nat n) * Q2Qc (100 # 1)).
Proof.
  intros Hn. unfold of_nat, c_100, lit. simpl.
  rewrite decide_False; [done|].
  rewrite <- Z2Qc_inj_0. intros H%Z2Qc_inj. lia.
Qed.

Lemma percentage_bounds (k n : nat) :
  (0 < n)%nat → (k ≤ n)%nat →
  0 ≤ Qc_of_Z (Z.of_nat k) / Qc_of_Z (Z.of_nat n) * Q2Qc (100 # 1) ∧
  Qc_of_Z (Z.of_nat k) / Qc_of_Z (Z.of_nat n) * Q2Qc (100 # 1) ≤ Q2Qc (100 # 1).
Proof.
  intros Hn Hk.
  assert (0 < Qc_of_Z (Z.of_nat n)) as HN.
  { rewrite <- Z2Qc_inj_0. apply (proj1 (Z2Qc_inj_lt _ _)). lia. }
  assert (0 ≤ Qc_of_Z (Z.of_nat k)) as HK.
  { rewrite <- Z2Qc_inj_0. apply (proj1 (Z2Qc_inj_le _ _)). lia. }
  assert (Qc_of_Z (Z.of_nat k) ≤ Qc_of_Z (Z.of_nat n)) as HKN.
  { apply (proj1 (Z2Qc_inj_le _ _)). lia. }
  pose proof (Qcinv_pos _ HN) as Hinv.
  assert (Qc_of_Z (Z.of_nat k) / Qc_of_Z (Z.of_nat n) ≤ 1) as Hfrac.
  { unfold Qcdiv.
    rewrite <- (Qcmult_inv_r (Qc_of_Z (Z.of_nat n))) by (by apply not_symmetry, Qclt_not_eq).
    apply Qcmult_le_mono_nonneg_r; [by apply Qclt_le_weak|done]. }
  split.
  - apply Qcmult_nonneg_nonneg; [|done].
    unfold Qcdiv. apply Qcmult_nonneg_nonneg; [done|by apply Qclt_le_weak].
  - rewrite <- (Qcmult_1_l (Q2Qc (100 # 1))) at 2.
    by apply Qcmult_le_mono_nonneg_r.
Qed.

(** C5, as the code has it.  For a non-empty health raster, both
    percentages are numbers of [0, 100], and no pixel is counted twice: the
    number of pixels above 0.6 and the number of pixels below 0.3 add up to
    at most the number of pixels. *)
Theorem percentages_bounded (health_map : ndarray npfloat) :
  wf_ndarray health_map → (0 < size health_map)%nat →
  ∃ p q : Qc,
    healthy_area health_map = Fin p ∧ stressed_area health_map = Fin q ∧
    0 ≤ p ∧ p ≤ Q2Qc (100 # 1) ∧ 0 ≤ q ∧ q ≤ Q2Qc (100 # 1) ∧
    healthy_area health_map
    = percentage_of (λ x, greater x c_0_6) health_map ∧
    stressed_area health_map
    = percentage_of (λ x, less x c_0_3) health_map ∧
    (count_pixels (λ x, greater x c_0_6) health_map
     + count_pixels (λ x, less x c_0_3) health_map ≤ size health_map)%nat.
Proof.
  intros Hwf Hn.
  assert (healthy_area health_map
          = percentage_of (λ x, greater x c_0_6) health_map) as Hh.
  { unfold healthy_area, percentage_of. by rewrite mean_of_test. }
  assert (stressed_area health_map
          = percentage_of (λ x, less x c_0_3) health_map) as Hst.
  { unfold stressed_area, percentage_of. by rewrite mean_of_test. }
  set (k1 := count_pixels (λ x, greater x c_0_6) health_map) in *.
  set (k2 := count_pixels (λ x, less x c_0_3) health_map) in *.
  assert (k1 + k2 ≤ size health_map)%nat as Hsum.
  { unfold size. rewrite <- Hwf. apply disjoint_counts, thresholds_disjoint. }
  destruct (percentage_bounds k1 (size health_map) Hn ltac:(lia)) as [Hp0 Hp1].
  destruct (percentage_bounds k2 (size health_map) Hn ltac:(lia)) as [Hq0 Hq1].
  eexists _, _.
  split; [rewrite Hh; unfold percentage_of; fold k1; by apply percentage_value|].
  split; [rewrite Hst; unfold percentage_of; fold k2; by apply percentage_value|].
  repeat (split; [done|]). done.
Qed.

Lemma percentages_bounded_witness :
  wf_ndarray sample_health ∧ (0 < size sample_health)%nat ∧
  ∃ p q : Qc,
    healthy_area sample_health = Fin p ∧ stressed_area sample_health = Fin q ∧
    0 ≤ p ∧ p ≤ Q2Qc (100 # 1) ∧ 0 ≤ q ∧ q ≤ Q2Qc (100 # 1) ∧
    healthy_area sample_health
    = percentage_of (λ x, greater x c_0_6) sample_health ∧
    stressed_area sample_health
    = percentage_of (λ x, less x c_0_3) sample_health ∧
    (count_pixels (λ x, greater x c_0_6) sample_health
     + count_pixels (λ x, less x c_0_3) sample_health ≤ size sample_health)%nat.
Proof.
  split; [reflexivity|]. split; [vm_compute; lia|].
  apply (percentages_bounded sample_health); [reflexivity|vm_compute; lia].
Defined.

End threshold_summary.

(** ** The model on concrete inputs *)

Section concrete_checks.
Local Open Scope Qc_scope.

(** Shapes (1, 3) and (2, 1) broadcast to (2, 3); (1, 3) and (2, 2) do not. *)
Example ufunc2_broadcasts :
  ufunc2 Nat.add (mk_ndarray 1 3 [1; 2; 3]%nat) (mk_ndarray 2 1 [10; 20]%nat)
  = Ok (mk_ndarray 2 3 [11; 12; 13; 21; 22; 23]%nat) ∧
  ufunc2 Nat.add (mk_ndarray 1 3 [1; 2; 3]%nat) (mk_ndarray 2 2 [10; 20; 30; 40]%nat)
  = Raise ValueError.
Proof. split; reflexivity. Qed.

(** A negative index counts from the last band. *)
Example band_negative_index :
  band scenario_cube (-1) = band scenario_cube 150 ∧
  band scenario_cube (-152) = Raise IndexError.
Proof. split; reflexivity. Qed.

(** NIR = 5 and Red = -5 give the vegetation index 1e11. *)
Example nd_pixel_five : nd_pixel (lit 5 1) (lit (-5) 1) = lit 100000000000 1.
Proof. vm_compute. first [reflexivity | f_equal; by apply Qc_is_canon]. Qed.

(** The scenario of the specification: every fused score is
    0.6 / (1 + 1e-10) * (1 - 0.7 / (0.9 + 1e-10)), about 0.1333, so no pixel
    is healthy and every pixel is stressed. *)
Example main_scenario :
  ∃ r x, main scenario_cube = Ok r ∧
         shape (r_health_map r) = (2, 2)%nat ∧
         get2 (r_health_map r) 1 1 = Some (Fin x) ∧
         Q2Qc (1333 # 10000) < x ∧ x < Q2Qc (1334 # 10000) ∧
         r_healthy_area r = c_0 ∧ r_stressed_area r = c_100.
Proof.
  eexists _, _. split; [vm_compute; reflexivity|].
  split; [reflexivity|]. split; [reflexivity|].
  split; [by vm_compute|]. split; [by vm_compute|].
  split; vm_compute; first [reflexivity | f_equal; by apply Qc_is_canon].
Qed.

(** On a raster without pixels both percentages are 0/0 * 100 = NaN. *)
Example empty_raster_percentages :
  healthy_area (mk_ndarray 0 0 []) = NaN ∧
  stressed_area (mk_ndarray 0 0 []) = NaN.
Proof. split; reflexivity. Qed.

End concrete_checks.

(** ** When the functions raise *)

Section outcomes.
Implicit Types (d : cube npfloat) (a b : ndarray npfloat).

Lemma main_unfold_ok d (ndvi ndwi h b100 : ndarray npfloat) :
  calculate_ndvi d = Ok ndvi → calculate_ndwi d = Ok ndwi →
  create_health_map ndvi ndwi = Ok h → band d 100 = Ok b100 →
  main d = Ok (mk_report ndvi ndwi h (healthy_area h) (stressed_area h)).
Proof.
  intros Hv Hw Hh Hb. unfold main.
  rewrite Hv. simpl. rewrite Hw. simpl. rewrite Hh. simpl. by rewrite Hb.
Qed.

(** With more than 150 bands every step of [main] succeeds. *)
Lemma main_ok d :
  150 < dim2 d →
  ∃ ndvi ndwi h,
    calculate_ndvi d = Ok ndvi ∧ calculate_ndwi d = Ok ndwi ∧
    create_health_map ndvi ndwi = Ok h ∧
    main d = Ok (mk_report ndvi ndwi h (healthy_area h) (stressed_area h)) ∧
    shape ndvi = (dim0 d, dim1 d) ∧ shape ndwi = (dim0 d, dim1 d) ∧
    shape h = (dim0 d, dim1 d) ∧
    (wf_cube d → wf_ndarray ndvi ∧ wf_ndarray ndwi ∧ wf_ndarray h) ∧
    (wf_cube d → ∀ i j,
       get2 h i j
       = (nir ← get3 d i j 90; red ← get3 d i j 50; swir ← get3 d i j 150;
          Some (health_pixel (nd_pixel nir red) (nd_pixel nir swir)))).
Proof.
  intros Hb.
  destruct (calculate_ndvi_ok d ltac:(lia)) as (ndvi & Hv & Hvr & Hvc & Hvp).
  destruct (calculate_ndwi_ok d Hb) as (ndwi & Hw & Hwr & Hwc & Hwp).
  assert (shape ndvi = shape ndwi) as Hs by (unfold shape; congruence).
  destruct (create_health_map_ok ndvi ndwi Hs) as (h & Hh & Hhr & Hhc & Hhwf & Hhp).
  destruct (band_ok d 100 ltac:(lia)) as (b100 & Hb100 & _).
  change (Z.of_nat 100) with 100%Z in Hb100.
  exists ndvi, ndwi, h.
  split; [done|]. split; [done|]. split; [done|].
  split; [by eapply main_unfold_ok|].
  split; [unfold shape; congruence|]. split; [unfold shape; congruence|].
  split; [unfold shape; congruence|]. split.
  - intros Hwf. destruct (Hvp Hwf) as [Hv1 _], (Hwp Hwf) as [Hw1 _]. auto.
  - intros Hwf i j. destruct (Hvp Hwf) as [_ Hv2], (Hwp Hwf) as [_ Hw2].
    rewrite Hhp, Hv2, Hw2.
    destruct (get3 d i j 90), (get3 d i j 50), (get3 d i j 150); done.
Qed.

(** X1. [calculate_ndvi], [calculate_ndwi] and the computation in [main]
    raise exactly when a band they slice is missing, and then it is
    [IndexError]: [calculate_ndvi] needs more than 90 bands, [calculate_ndwi]
    and [main] need more than 150.  None of them ever raises the
    shape-mismatch error, because both slices come from the same cube. *)
Theorem raise_exactly_on_missing_band (data : cube npfloat) (e : exn) :
  (calculate_ndvi data = Raise e ↔ e = IndexError ∧ dim2 data ≤ 90) ∧
  (calculate_ndwi data = Raise e ↔ e = IndexError ∧ dim2 data ≤ 150) ∧
  (main data = Raise e ↔ e = IndexError ∧ dim2 data ≤ 150).
Proof.
  split; [|split].
  - split.
    + intros Hr. destruct (decide (dim2 data ≤ 90)) as [Hle|Hgt].
      * rewrite calculate_ndvi_missing_band in Hr by done. by injection Hr as <-.
      * destruct (calculate_ndvi_ok data ltac:(lia)) as (r & Hok & _). congruence.
    + intros [-> Hle]. by apply calculate_ndvi_missing_band.
  - split.
    + intros Hr. destruct (decide (dim2 data ≤ 150)) as [Hle|Hgt].
      * rewrite calculate_ndwi_missing_band in Hr by done. by injection Hr as <-.
      * destruct (calculate_ndwi_ok data ltac:(lia)) as (r & Hok & _). congruence.
    + intros [-> Hle]. by apply calculate_ndwi_missing_band.
  - split.
    + intros Hr. destruct (decide (dim2 data ≤ 150)) as [Hle|Hgt].
      * rewrite main_missing_band in Hr by done. by injection Hr as <-.
      * destruct (main_ok data ltac:(lia)) as (? & ? & ? & _ & _ & _ & Hok & _).
        congruence.
    + intros [-> Hle]. by apply main_missing_band.
Qed.

(** X2. On a cube with more than 150 bands the computation in [main]
    returns a report; its three rasters are the results of [calculate_ndvi], [calculate_ndwi] and
    [create_health_map], all of the cube's spatial shape, and well formed
    when the cube is; the two percentages are those of the fused raster. *)
Theorem main_returns_rasters_of_cube_shape (data : cube npfloat) :
  150 < dim2 data →
  ∃ r, main data = Ok r ∧
       calculate_ndvi data = Ok (r_ndvi r) ∧
       calculate_ndwi data = Ok (r_ndwi r) ∧
       create_health_map (r_ndvi r) (r_ndwi r) = Ok (r_health_map r) ∧
       r_healthy_area r = healthy_area (r_health_map r) ∧
       r_stressed_area r = stressed_area (r_health_map r) ∧
       shape (r_ndvi r) = (dim0 data, dim1 data) ∧
       shape (r_ndwi r) = (dim0 data, dim1 data) ∧
       shape (r_health_map r) = (dim0 data, dim1 data) ∧
       (wf_cube data →
        wf_ndarray (r_ndvi r) ∧ wf_ndarray (r_ndwi r) ∧
        wf_ndarray (r_health_map r)).
Proof.
  intros Hb.
  destruct (main_ok data Hb)
    as (ndvi & ndwi & h & Hv & Hw & Hh & Hm & Hs1 & Hs2 & Hs3 & Hwf & _).
  eexists. split; [exact Hm|]. simpl.
  repeat (split; [done|]). done.
Qed.

Lemma main_returns_rasters_of_cube_shape_witness :
  150 < dim2 scenario_cube ∧
  ∃ r, main scenario_cube = Ok r ∧
       calculate_ndvi scenario_cube = Ok (r_ndvi r) ∧
       calculate_ndwi scenario_cube = Ok (r_ndwi r) ∧
       create_health_map (r_ndvi r) (r_ndwi r) = Ok (r_health_map r) ∧
       r_healthy_area r = healthy_area (r_health_map r) ∧
       r_stressed_area r = stressed_area (r_health_map r) ∧
       shape (r_ndvi r) = (dim0 scenario_cube, dim1 scenario_cube) ∧
       shape (r_ndwi r) = (dim0 scenario_cube, dim1 scenario_cube) ∧
       shape (r_health_map r) = (dim0 scenario_cube, dim1 scenario_cube) ∧
       (wf_cube scenario_cube →
        wf_ndarray (r_ndvi r) ∧ wf_ndarray (r_ndwi r) ∧
        wf_ndarray (r_health_map r)).
Proof.
  split; [simpl; lia|].
  apply (main_returns_rasters_of_cube_shape scenario_cube). simpl. lia.
Defined.

(** X3. The fused score that [main] reports at a pixel is computed from the
    three samples of that pixel alone: with [ndvi = (nir - red) / (nir + red
    + 1e-10)] and [ndwi = (nir - swir) / (nir + swir + 1e-10)] it is
    [ndvi * (1 - clip(ndwi, 0, 1))]. *)
Theorem main_pixel_formula (data : cube npfloat) (i j : nat)
    (red nir swir : npfloat) :
  wf_cube data → 150 < dim2 data →
  get3 data i j 50 = Some red →
  get3 data i j 90 = Some nir →
  get3 data i j 150 = Some swir →
  ∃ r, main data = Ok r ∧
       get2 (r_ndvi r) i j
       = Some (true_divide (subtract nir red) (add (add nir red) c_1e_10)) ∧
       get2 (r_ndwi r) i j
       = Some (true_divide (subtract nir swir) (add (add nir swir) c_1e_10)) ∧
       get2 (r_health_map r) i j
       = Some (multiply
                 (true_divide (subtract nir red) (add (add nir red) c_1e_10))
                 (subtract c_1
                    (clip (true_divide (subtract nir swir)
                             (add (add nir swir) c_1e_10)) c_0 c_1))).
Proof.
  intros Hwf Hb Hred Hnir Hswir.
  destruct (main_ok data Hb)
    as (ndvi & ndwi & h & Hv & Hw & Hh & Hm & _ & _ & _ & _ & Hpx).
  destruct (calculate_ndvi_ok data ltac:(lia)) as (ndvi' & Hv' & _ & _ & Hvp).
  destruct (calculate_ndwi_ok data Hb) as (ndwi' & Hw' & _ & _ & Hwp).
  assert (ndvi' = ndvi) as -> by congruence.
  assert (ndwi' = ndwi) as -> by congruence.
  destruct (Hvp Hwf) as [_ Hv2], (Hwp Hwf) as [_ Hw2].
  eexists. split; [exact Hm|]. simpl.
  rewrite Hv2, Hw2, (Hpx Hwf), Hred, Hnir, Hswir. done.
Qed.

Lemma main_pixel_formula_witness :
  wf_cube scenario_cube ∧ 150 < dim2 scenario_cube ∧
  get3 scenario_cube 1 0 50 = Some (lit 2 10) ∧
  get3 scenario_cube 1 0 90 = Some (lit 8 10) ∧
  get3 scenario_cube 1 0 150 = Some (lit 1 10) ∧
  ∃ r, main scenario_cube = Ok r ∧
       get2 (r_ndvi r) 1 0
       = Some (true_divide (subtract (lit 8 10) (lit 2 10))
                 (add (add (lit 8 10) (lit 2 10)) c_1e_10)) ∧
       get2 (r_ndwi r) 1 0
       = Some (true_divide (subtract (lit 8 10) (lit 1 10))
                 (add (add (lit 8 10) (lit 1 10)) c_1e_10)) ∧
       get2 (r_health_map r) 1 0
       = Some (multiply
                 (true_divide (subtract (lit 8 10) (lit 2 10))
                    (add (add (lit 8 10) (lit 2 10)) c_1e_10))
                 (subtract c_1
                    (clip (true_divide (subtract (lit 8 10) (lit 1 10))
                             (add (add (lit 8 10) (lit 1 10)) c_1e_10)) c_0 c_1))).
Proof.
  split; [reflexivity|]. split; [simpl; lia|].
  split; [reflexivity|]. split; [reflexivity|]. split; [reflexivity|].
  apply (main_pixel_formula scenario_cube 1 0 (lit 2 10) (lit 8 10) (lit 1 10));
    [reflexivity|simpl; lia|reflexivity|reflexivity|reflexivity].
Defined.

End outcomes.

(** ** Ranges of the indices and of the fused score *)

Section ranges.
Local Open Scope Qc_scope.

(** Comparisons of [Qc] are read as comparisons of [Q]. *)
Local Ltac qc_to_q :=
  unfold Qcle, Qclt, Qcdiv, Qcminus in *;
  cbn [this Q2Qc Qcplus Qcmult Qcopp] in *;
  rewrite ?Qred_correct in *.

Lemma Qc_quotient_bounds (n d : Qc) :
  0 < d → - d < n → n < d → - Q2Qc 1 < n / d ∧ n / d < Q2Qc 1.
Proof.
  intros Hd Hlo Hhi.
  pose proof (Qcinv_pos d Hd) as Hinv.
  assert (d * / d = 1) as Hone.
  { apply Qcmult_inv_r. by apply not_symmetry, Qclt_not_eq. }
  split.
  - replace (- Q2Qc 1) with (- d * / d) by (rewrite <- Hone; ring).
    unfold Qcdiv. by apply Qcmult_lt_mono_pos_r.
  - change (Q2Qc 1) with 1. rewrite <- Hone.
    unfold Qcdiv. by apply Qcmult_lt_mono_pos_r.
Qed.

(** For non-negative samples the denominator is at least 1e-10, and in
    exact arithmetic the normalized difference lies strictly between -1
    and 1 (rounding can make it reach them). *)
Lemma nd_pixel_nonneg (a b : Qc) :
  0 ≤ a → 0 ≤ b →
  ∃ v, nd_pixel (Fin a) (Fin b) = Fin v ∧ - Q2Qc 1 < v ∧ v < Q2Qc 1.
Proof.
  intros Ha Hb. unfold nd_pixel, c_1e_10, lit. simpl.
  assert (0 < a + b + Q2Qc (1 # 10000000000)) as Hd.
  { assert (0 < Q2Qc (1 # 10000000000)) by done. qc_to_q. lra. }
  rewrite decide_False by (by apply not_symmetry, Qclt_not_eq).
  eexists. split; [done|].
  apply Qc_quotient_bounds; [done| |].
  - assert (0 < Q2Qc (1 # 10000000000)) by done. qc_to_q. lra.
  - assert (0 < Q2Qc (1 # 10000000000)) by done. qc_to_q. lra.
Qed.

(** The fused score of a finite vegetation index and a moisture index that
    is not NaN lies between 0 and the vegetation index. *)
Lemma health_pixel_between (v : Qc) (w : npfloat) :
  isnan w = false →
  ∃ x, health_pixel (Fin v) w = Fin x ∧
       (0 ≤ v → 0 ≤ x ∧ x ≤ v) ∧ (v ≤ 0 → v ≤ x ∧ x ≤ 0).
Proof.
  intros Hw. unfold health_pixel.
  destruct (clip_unit_interval w Hw) as (m & -> & Hm0 & Hm1).
  exists (v * (Q2Qc (1 # 1) - m)). split; [done|].
  change (Q2Qc (1 # 1)) with 1.
  split; intros Hv; qc_to_q; split; nra.
Qed.

(** X4. At a pixel whose NIR and red samples are non-negative numbers the
    vegetation index is a number from -1 to 1, and likewise the moisture
    index for non-negative NIR and SWIR samples: the denominator is at least
    1e-10, so nothing divides by zero and the index is neither NaN nor an
    infinity. *)
Theorem indices_within_unit_range (data : cube npfloat) (i j : nat)
    (red nir swir : Qc) :
  wf_cube data → (150 < dim2 data)%nat →
  get3 data i j 50 = Some (Fin red) →
  get3 data i j 90 = Some (Fin nir) →
  get3 data i j 150 = Some (Fin swir) →
  0 ≤ red → 0 ≤ nir → 0 ≤ swir →
  ∃ ndvi ndwi v w,
    calculate_ndvi data = Ok ndvi ∧ calculate_ndwi data = Ok ndwi ∧
    get2 ndvi i j = Some (Fin v) ∧ get2 ndwi i j = Some (Fin w) ∧
    - Q2Qc 1 ≤ v ∧ v ≤ Q2Qc 1 ∧ - Q2Qc 1 ≤ w ∧ w ≤ Q2Qc 1.
Proof.
  intros Hwf Hb Hred Hnir Hswir Hr0 Hn0 Hs0.
  destruct (calculate_ndvi_ok data ltac:(lia)) as (ndvi & Hv & _ & _ & Hvp).
  destruct (calculate_ndwi_ok data Hb) as (ndwi & Hw & _ & _ & Hwp).
  destruct (Hvp Hwf) as [_ Hv2], (Hwp Hwf) as [_ Hw2].
  destruct (nd_pixel_nonneg nir red Hn0 Hr0) as (v & Hev & Hv1 & Hv3).
  destruct (nd_pixel_nonneg nir swir Hn0 Hs0) as (w & Hew & Hw1 & Hw3).
  exists ndvi, ndwi, v, w.
  split; [done|]. split; [done|].
  split; [rewrite Hv2, Hnir, Hred; simpl; by rewrite Hev|].
  split; [rewrite Hw2, Hnir, Hswir; simpl; by rewrite Hew|].
  auto using Qclt_le_weak.
Qed.

Lemma indices_within_unit_range_witness :
  wf_cube scenario_cube ∧ (150 < dim2 scenario_cube)%nat ∧
  get3 scenario_cube 0 1 50 = Some (Fin (Q2Qc (2 # 10))) ∧
  get3 scenario_cube 0 1 90 = Some (Fin (Q2Qc (8 # 10))) ∧
  get3 scenario_cube 0 1 150 = Some (Fin (Q2Qc (1 # 10))) ∧
  0 ≤ Q2Qc (2 # 10) ∧ 0 ≤ Q2Qc (8 # 10) ∧ 0 ≤ Q2Qc (1 # 10) ∧
  ∃ ndvi ndwi v w,
    calculate_ndvi scenario_cube = Ok ndvi ∧
    calculate_ndwi scenario_cube = Ok ndwi ∧
    get2 ndvi 0 1 = Some (Fin v) ∧ get2 ndwi 0 1 = Some (Fin w) ∧
    - Q2Qc 1 ≤ v ∧ v ≤ Q2Qc 1 ∧ - Q2Qc 1 ≤ w ∧ w ≤ Q2Qc 1.
Proof.
  split; [reflexivity|]. split; [simpl; lia|].
  split; [reflexivity|]. split; [reflexivity|]. split; [reflexivity|].
  split; [by vm_compute|]. split; [by vm_compute|]. split; [by vm_compute|].
  apply (indices_within_unit_range scenario_cube 0 1
           (Q2Qc (2 # 10)) (Q2Qc (8 # 10)) (Q2Qc (1 # 10)));
    [reflexivity|simpl; lia|reflexivity|reflexivity|reflexivity
    |by vm_compute|by vm_compute|by vm_compute].
Defined.

(** X6. For index rasters of one shape, at a pixel where the vegetation
    index is a number and the moisture index is not NaN, the fused score is
    a number between 0 and the vegetation index: moisture never changes the
    sign of the score and never increases its magnitude. *)
Theorem health_between_zero_and_ndvi (ndvi ndwi : ndarray npfloat)
    (i j : nat) (v : Qc) (w : npfloat) :
  shape ndvi = shape ndwi →
  get2 ndvi i j = Some (Fin v) →
  get2 ndwi i j = Some w → isnan w = false →
  ∃ h x, create_health_map ndvi ndwi = Ok h ∧ get2 h i j = Some (Fin x) ∧
         (0 ≤ v → 0 ≤ x ∧ x ≤ v) ∧ (v ≤ 0 → v ≤ x ∧ x ≤ 0).
Proof.
  intros Hs Hv Hw Hnan.
  destruct (create_health_map_ok ndvi ndwi Hs) as (h & Hh & _ & _ & _ & Hpx).
  destruct (health_pixel_between v w Hnan) as (x & Hx & Hbounds).
  exists h, x. split; [done|]. split; [|done].
  rewrite Hpx, Hv, Hw.
  change (Some (health_pixel (Fin v) w) = Some (Fin x)). by rewrite Hx.
Qed.

Lemma health_between_zero_and_ndvi_witness :
  shape sample_ndvi = shape sample_ndwi ∧
  get2 sample_ndvi 0 2 = Some (Fin (Q2Qc (-2 # 10))) ∧
  get2 sample_ndwi 0 2 = Some (lit (-4) 10) ∧ isnan (lit (-4) 10) = false ∧
  ∃ h x, create_health_map sample_ndvi sample_ndwi = Ok h ∧
         get2 h 0 2 = Some (Fin x) ∧
         (0 ≤ Q2Qc (-2 # 10) → 0 ≤ x ∧ x ≤ Q2Qc (-2 # 10)) ∧
         (Q2Qc (-2 # 10) ≤ 0 → Q2Qc (-2 # 10) ≤ x ∧ x ≤ 0).
Proof.
  split; [reflexivity|]. split; [reflexivity|].
  split; [reflexivity|]. split; [reflexivity|].
  apply (health_between_zero_and_ndvi sample_ndvi sample_ndwi 0 2
           (Q2Qc (-2 # 10)) (lit (-4) 10)); reflexivity.
Defined.

End ranges.

(** ** More on the threshold percentages *)

Section percentages.
Local Open Scope Qc_scope.

Local Ltac qc_to_q :=
  unfold Qcle, Qclt, Qcdiv, Qcminus in *;
  cbn [this Q2Qc Qcplus Qcmult Qcopp] in *;
  rewrite ?Qred_correct in *.

(** A fused score above 0.6 needs a vegetation index above 0.6. *)
Lemma healthy_pixel_needs_high_ndvi (v w : npfloat) :
  greater (health_pixel v w) c_0_6 = true → greater v c_0_6 = true.
Proof.
  destruct v as [q| | |]; [| done | |].
  - destruct (isnan w) eqn:Hw.
    { destruct w; done. }
    destruct (health_pixel_between q w Hw) as (x & -> & Hpos & Hneg).
    unfold greater, less, c_0_6, lit.
    intros Hx. apply bool_decide_eq_true in Hx. apply bool_decide_eq_true.
    assert (0 < Q2Qc (6 # 10)) as H6 by done.
    destruct (Qclt_le_dec q 0) as [Hq|Hq].
    + destruct (Hneg (Qclt_le_weak _ _ Hq)) as [_ Hx0]. qc_to_q. lra.
    + destruct (Hpos Hq) as [_ Hxq]. qc_to_q. lra.
  - unfold health_pixel. destruct (isnan w) eqn:Hw.
    { destruct w; done. }
    destruct (clip_unit_interval w Hw) as (m & -> & Hm0 & Hm1).
    simpl. unfold scale_inf.
    destruct (decide (Q2Qc (1 # 1) - m = 0)) as [|Hnz]; [done|].
    rewrite bool_decide_eq_true_2; [done|].
    change (Q2Qc (1 # 1)) with 1 in *.
    destruct (Qc_one_minus_bounds m Hm0 Hm1) as [H0 _].
    destruct (Qcle_lt_or_eq _ _ H0) as [Hlt|Heq]; [done|].
    by destruct Hnz.
  - by destruct w.
Qed.

Lemma filter_zip_with_le {X Y} (p : X → bool) (f : X → Y → X)
    (l : list X) (k : list Y) :
  (∀ x y, p (f x y) = true → p x = true) →
  (length (List.filter p (zip_with f l k)) ≤ length (List.filter p l))%nat.
Proof.
  intros Hf. revert k. induction l as [|x l IH]; intros [|y k]; simpl; try lia.
  specialize (IH k). destruct (p (f x y)) eqn:Hfx.
  - rewrite (Hf x y Hfx). simpl. lia.
  - destruct (p x); simpl; lia.
Qed.

Lemma percentage_mono (k1 k2 n : nat) :
  (0 < n)%nat → (k1 ≤ k2)%nat →
  Qc_of_Z (Z.of_nat k1) / Qc_of_Z (Z.of_nat n) * Q2Qc (100 # 1)
  ≤ Qc_of_Z (Z.of_nat k2) / Qc_of_Z (Z.of_nat n) * Q2Qc (100 # 1).
Proof.
  intros Hn Hk.
  assert (0 < Qc_of_Z (Z.of_nat n)) as HN.
  { rewrite <- Z2Qc_inj_0. apply (proj1 (Z2Qc_inj_lt _ _)). lia. }
  pose proof (Qcinv_pos _ HN) as Hinv.
  apply Qcmult_le_mono_nonneg_r; [done|].
  unfold Qcdiv. apply Qcmult_le_mono_nonneg_r; [by apply Qclt_le_weak|].
  apply (proj1 (Z2Qc_inj_le _ _)). lia.
Qed.

(** X7. Moisture can only shrink the healthy area: for index rasters of
    one non-empty shape, the healthy-area percentage of the fused score is
    at most the healthy-area percentage of the vegetation index itself. *)
Theorem fusion_shrinks_healthy_area (ndvi ndwi : ndarray npfloat) :
  shape ndvi = shape ndwi → (0 < size ndvi)%nat →
  ∃ h p q, create_health_map ndvi ndwi = Ok h ∧
           healthy_area h = Fin p ∧ healthy_area ndvi = Fin q ∧ p ≤ q.
Proof.
  intros Hs Hn.
  assert (create_health_map ndvi ndwi
          = Ok (mk_ndarray (nrows ndvi) (ncols ndvi)
                  (zip_with health_pixel (flat ndvi) (flat ndwi)))) as Hh.
  { unfold create_health_map. rewrite ufunc2_same_shape by done.
    do 2 f_equal. unfold ufunc1. simpl.
    rewrite <- list_fmap_compose, zip_with_fmap_r. done. }
  eexists _, _, _. split; [exact Hh|].
  unfold healthy_area. rewrite !mean_of_test.
  unfold size in *. cbn [nrows ncols flat].
  rewrite !percentage_value by done.
  split; [done|]. split; [done|].
  apply percentage_mono; [done|].
  unfold count_pixels. cbn [nrows ncols flat].
  apply (filter_zip_with_le (λ x, greater x c_0_6)).
  apply healthy_pixel_needs_high_ndvi.
Qed.

Lemma fusion_shrinks_healthy_area_witness :
  shape sample_ndvi = shape sample_ndwi ∧ (0 < size sample_ndvi)%nat ∧
  ∃ h p q, create_health_map sample_ndvi sample_ndwi = Ok h ∧
           healthy_area h = Fin p ∧ healthy_area sample_ndvi = Fin q ∧ p ≤ q.
Proof.
  split; [reflexivity|]. split; [vm_compute; lia|].
  apply (fusion_shrinks_healthy_area sample_ndvi sample_ndwi);
    [reflexivity|vm_compute; lia].
Defined.

(** X9. On a raster without pixels (a shape with a zero dimension) both
    percentages are NaN: the mean of no values is 0/0. *)
Theorem percentages_of_empty_raster (health_map : ndarray npfloat) :
  wf_ndarray health_map → size health_map = 0%nat →
  healthy_area health_map = NaN ∧ stressed_area health_map = NaN.
Proof.
  intros Hwf Hn.
  assert (flat health_map = []) as Hnil.
  { apply nil_length_inv. unfold wf_ndarray, size in *. lia. }
  unfold healthy_area, stressed_area. rewrite !mean_of_test.
  unfold count_pixels. rewrite Hnil, Hn. cbn [List.filter length].
  assert (true_divide (of_nat 0) (of_nat 0) = NaN) as ->; [|done].
  unfold true_divide, of_nat.
  rewrite !decide_True by apply Z2Qc_inj_0. done.
Qed.

Lemma percentages_of_empty_raster_witness :
  wf_ndarray empty_raster ∧ size empty_raster = 0%nat ∧
  healthy_area empty_raster = NaN ∧ stressed_area empty_raster = NaN.
Proof.
  split; [reflexivity|]. split; [reflexivity|].
  apply (percentages_of_empty_raster empty_raster); reflexivity.
Defined.

End percentages.

(** ** What the results depend on *)

Section dependence.
Local Open Scope Qc_scope.
Implicit Types (d : cube npfloat) (a b : ndarray npfloat).

(** Two well-formed arrays of one shape that agree at every index are
    equal. *)
Lemma ndarray_ext a b :
  wf_ndarray a → wf_ndarray b → shape a = shape b →
  (∀ i j, get2 a i j = get2 b i j) → a = b.
Proof.
  destruct a as [ra ca la], b as [rb cb lb].
  unfold wf_ndarray, shape, get2. simpl.
  intros Ha Hb Hs Hget. injection Hs as -> ->. f_equal.
  apply list_eq. intros p.
  destruct (decide (p < rb * cb)%nat) as [Hp|Hp].
  - assert (0 < cb)%nat as Hc by nia.
    specialize (Hget (p / cb)%nat (p mod cb)%nat).
    assert (p / cb < rb)%nat as Hi.
    { apply Nat.Div0.div_lt_upper_bound. lia. }
    assert (p mod cb < cb)%nat as Hj by (apply Nat.mod_upper_bound; lia).
    rewrite !decide_True in Hget by done.
    replace (p / cb * cb + p mod cb)%nat with p in Hget; [done|].
    rewrite (Nat.div_mod_eq p cb) at 1. lia.
  - rewrite !lookup_ge_None_2 by lia. done.
Qed.

(** The slice of a band is determined by the samples of that band. *)
Lemma band_ext d1 d2 (k : nat) :
  wf_cube d1 → wf_cube d2 →
  dim0 d1 = dim0 d2 → dim1 d1 = dim1 d2 →
  (k < dim2 d1)%nat → (k < dim2 d2)%nat →
  (∀ i j, get3 d1 i j k = get3 d2 i j k) →
  band d1 (Z.of_nat k) = band d2 (Z.of_nat k).
Proof.
  intros Hwf1 Hwf2 H0 H1 Hk1 Hk2 Hget.
  destruct (band_ok d1 k Hk1) as (r1 & -> & Hr1 & Hc1 & Hb1).
  destruct (band_ok d2 k Hk2) as (r2 & -> & Hr2 & Hc2 & Hb2).
  destruct (Hb1 Hwf1) as [Hw1 Hg1], (Hb2 Hwf2) as [Hw2 Hg2].
  f_equal. apply ndarray_ext; [done|done|unfold shape; congruence|].
  intros i j. by rewrite Hg1, Hg2.
Qed.

(** X10. What [main] computes depends on bands 50, 90 and 150 only: two
    well-formed cubes of one spatial shape, each with more than 150 bands,
    that agree on these three bands at every pixel give the same report,
    whatever their other bands hold and however many there are. *)
Theorem main_reads_three_bands (data1 data2 : cube npfloat) :
  wf_cube data1 → wf_cube data2 →
  dim0 data1 = dim0 data2 → dim1 data1 = dim1 data2 →
  (150 < dim2 data1)%nat → (150 < dim2 data2)%nat →
  (∀ i j, get3 data1 i j 50 = get3 data2 i j 50) →
  (∀ i j, get3 data1 i j 90 = get3 data2 i j 90) →
  (∀ i j, get3 data1 i j 150 = get3 data2 i j 150) →
  main data1 = main data2 ∧ ∃ r, main data1 = Ok r.
Proof.
  intros Hwf1 Hwf2 H0 H1 Hb1 Hb2 H50 H90 H150.
  pose proof (band_ext data1 data2 50 Hwf1 Hwf2 H0 H1 ltac:(lia) ltac:(lia) H50) as E50.
  pose proof (band_ext data1 data2 90 Hwf1 Hwf2 H0 H1 ltac:(lia) ltac:(lia) H90) as E90.
  pose proof (band_ext data1 data2 150 Hwf1 Hwf2 H0 H1 ltac:(lia) ltac:(lia) H150) as E150.
  change (Z.of_nat 50) with 50%Z in E50.
  change (Z.of_nat 90) with 90%Z in E90.
  change (Z.of_nat 150) with 150%Z in E150.
  assert (calculate_ndvi data1 = calculate_ndvi data2) as Ev.
  { by rewrite !calculate_ndvi_unfold, E50, E90. }
  assert (calculate_ndwi data1 = calculate_ndwi data2) as Ew.
  { by rewrite !calculate_ndwi_unfold, E90, E150. }
  destruct (main_ok data1 Hb1) as (v1 & w1 & h1 & Hv1 & Hw1 & Hh1 & Hm1 & _).
  destruct (main_ok data2 Hb2) as (v2 & w2 & h2 & Hv2 & Hw2 & Hh2 & Hm2 & _).
  assert (v1 = v2) as -> by congruence.
  assert (w1 = w2) as -> by congruence.
  assert (h1 = h2) as -> by congruence.
  split; [by rewrite Hm1, Hm2|by eexists].
Qed.

Lemma main_reads_three_bands_witness :
  wf_cube scenario_cube ∧ wf_cube perturbed_cube ∧
  dim0 scenario_cube = dim0 perturbed_cube ∧
  dim1 scenario_cube = dim1 perturbed_cube ∧
  (150 < dim2 scenario_cube)%nat ∧ (150 < dim2 perturbed_cube)%nat ∧
  (∀ i j, get3 scenario_cube i j 50 = get3 perturbed_cube i j 50) ∧
  (∀ i j, get3 scenario_cube i j 90 = get3 perturbed_cube i j 90) ∧
  (∀ i j, get3 scenario_cube i j 150 = get3 perturbed_cube i j 150) ∧
  main scenario_cube = main perturbed_cube ∧ ∃ r, main scenario_cube = Ok r.
Proof.
  assert (∀ k, (k = 50 ∨ k = 90 ∨ k = 150)%nat →
               ∀ i j, get3 scenario_cube i j k = get3 perturbed_cube i j k) as Hsame.
  { intros k Hk i j.
    destruct i as [|[|i]], j as [|[|j]];
      destruct Hk as [->|[->| ->]]; reflexivity. }
  split; [reflexivity|]. split; [reflexivity|].
  split; [reflexivity|]. split; [reflexivity|].
  split; [simpl; lia|]. split; [simpl; lia|].
  split; [apply Hsame; auto|]. split; [apply Hsame; auto|].
  split; [apply Hsame; auto|].
  apply (main_reads_three_bands scenario_cube perturbed_cube);
    [reflexivity|reflexivity|reflexivity|reflexivity|simpl; lia|simpl; lia
    |apply Hsame; auto|apply Hsame; auto|apply Hsame; auto].
Defined.

(** X11. [create_health_map] raises exactly when the two shapes cannot be
    broadcast, that is when the row counts differ and neither is 1, or the
    column counts differ and neither is 1; the exception is then
    [ValueError]. *)
Theorem create_health_map_raises_iff (ndvi ndwi : ndarray npfloat) (e : exn) :
  create_health_map ndvi ndwi = Raise e
  ↔ e = ValueError ∧
    ((nrows ndvi ≠ nrows ndwi ∧ nrows ndvi ≠ 1%nat ∧ nrows ndwi ≠ 1%nat) ∨
     (ncols ndvi ≠ ncols ndwi ∧ ncols ndvi ≠ 1%nat ∧ ncols ndwi ≠ 1%nat)).
Proof.
  unfold create_health_map, ufunc2, ufunc1, shape, broadcast_dim.
  cbn [nrows ncols flat].
  destruct (decide ((nrows ndvi, ncols ndvi) = (nrows ndwi, ncols ndwi)))
    as [Hs|Hs].
  { injection Hs as Hr Hc. split; [done|]. intros [_ [[? _]|[? _]]]; done. }
  assert (nrows ndvi ≠ nrows ndwi ∨ ncols ndvi ≠ ncols ndwi) as Hne.
  { destruct (decide (nrows ndvi = nrows ndwi)); [|by left].
    destruct (decide (ncols ndvi = ncols ndwi)); [|by right].
    destruct Hs. congruence. }
  repeat case_decide; split;
    first [ done
          | by intros [-> _]
          | intros [_ [(? & ? & ?)|(? & ? & ?)]]; congruence
          | intros [= <-]; split; [done|]; tauto ].
Qed.

End dependence.

(** ** The fused score of non-negative samples *)

Section nonnegative_samples.
Local Open Scope Qc_scope.

Local Ltac qc_to_q :=
  unfold Qcle, Qclt, Qcdiv, Qcminus in *;
  cbn [this Q2Qc Qcplus Qcmult Qcopp] in *;
  rewrite ?Qred_correct in *.

(** For non-negative samples the normalized difference has the sign of the
    difference of the samples. *)
Lemma nd_pixel_sign (a b : Qc) :
  0 ≤ a → 0 ≤ b →
  ∃ v, nd_pixel (Fin a) (Fin b) = Fin v ∧ - Q2Qc 1 < v ∧ v < Q2Qc 1 ∧
       (b ≤ a → 0 ≤ v) ∧ (a ≤ b → v ≤ 0).
Proof.
  intros Ha Hb.
  destruct (nd_pixel_nonneg a b Ha Hb) as (v & Hv & Hlo & Hhi).
  exists v. split; [done|]. split; [done|]. split; [done|].
  assert (0 < a + b + Q2Qc (1 # 10000000000)) as Hd.
  { assert (0 < Q2Qc (1 # 10000000000)) by done. qc_to_q. lra. }
  pose proof (Qcinv_pos _ Hd) as Hinv.
  unfold nd_pixel, c_1e_10, lit in Hv. simpl in Hv.
  rewrite decide_False in Hv by (by apply not_symmetry, Qclt_not_eq).
  injection Hv as <-. unfold Qcdiv. split; intros Hab.
  - apply Qcmult_nonneg_nonneg; [|by apply Qclt_le_weak].
    by apply (proj1 (Qc_sub_nonneg b a)).
  - rewrite <- (Qcmult_0_l (/ (a + b + Q2Qc (1 # 10000000000)))).
    apply Qcmult_le_mono_nonneg_r; [by apply Qclt_le_weak|].
    apply (proj2 (Qc_sub_nonneg (a - b) 0)).
    replace (0 - (a - b)) with (b - a) by ring.
    by apply (proj1 (Qc_sub_nonneg a b)).
Qed.

(** X12. At a pixel whose red, NIR and SWIR samples are non-negative
    numbers, the fused score that [main] reports is a number from -1 to 1,
    never NaN or an infinity; it is non-negative when NIR is at least Red
    and non-positive when NIR is at most Red. *)
Theorem main_score_of_nonnegative_pixel (data : cube npfloat) (i j : nat)
    (red nir swir : Qc) :
  wf_cube data → (150 < dim2 data)%nat →
  get3 data i j 50 = Some (Fin red) →
  get3 data i j 90 = Some (Fin nir) →
  get3 data i j 150 = Some (Fin swir) →
  0 ≤ red → 0 ≤ nir → 0 ≤ swir →
  ∃ r x, main data = Ok r ∧ get2 (r_health_map r) i j = Some (Fin x) ∧
         - Q2Qc 1 ≤ x ∧ x ≤ Q2Qc 1 ∧
         (red ≤ nir → 0 ≤ x) ∧ (nir ≤ red → x ≤ 0).
Proof.
  intros Hwf Hb Hred Hnir Hswir Hr0 Hn0 Hs0.
  destruct (main_ok data Hb)
    as (ndvi & ndwi & h & _ & _ & _ & Hm & _ & _ & _ & _ & Hpx).
  destruct (nd_pixel_sign nir red Hn0 Hr0) as (v & Hv & Hv1 & Hv2 & Hvp & Hvn).
  destruct (nd_pixel_nonneg nir swir Hn0 Hs0) as (w & Hw & _ & _).
  destruct (health_pixel_between v (Fin w) eq_refl) as (x & Hx & Hpos & Hneg).
  eexists _, x. split; [exact Hm|]. simpl. split.
  { rewrite (Hpx Hwf), Hnir, Hred, Hswir.
    change (Some (health_pixel (nd_pixel (Fin nir) (Fin red))
                    (nd_pixel (Fin nir) (Fin swir))) = Some (Fin x)).
    by rewrite Hv, Hw, Hx. }
  destruct (Qclt_le_dec v 0) as [Hv0|Hv0].
  - destruct (Hneg (Qclt_le_weak _ _ Hv0)) as [Hxv Hx0].
    split; [by eapply Qclt_le_weak, Qclt_le_trans|].
    split; [eapply Qclt_le_weak, Qcle_lt_trans; [exact Hx0|done]|].
    split; [|done]. intros Hle. specialize (Hvp Hle).
    by destruct (Qcle_not_lt _ _ Hvp).
  - destruct (Hpos Hv0) as [Hx0 Hxv].
    split; [eapply Qclt_le_weak, Qclt_le_trans; [|exact Hx0]; done|].
    split; [by eapply Qclt_le_weak, Qcle_lt_trans|].
    split; [done|]. intros Hle. specialize (Hvn Hle).
    assert (v = 0) as -> by (by apply Qcle_antisym).
    by apply Qcle_antisym in Hxv as ->.
Qed.

Lemma main_score_of_nonnegative_pixel_witness :
  wf_cube scenario_cube ∧ (150 < dim2 scenario_cube)%nat ∧
  get3 scenario_cube 1 1 50 = Some (Fin (Q2Qc (2 # 10))) ∧
  get3 scenario_cube 1 1 90 = Some (Fin (Q2Qc (8 # 10))) ∧
  get3 scenario_cube 1 1 150 = Some (Fin (Q2Qc (1 # 10))) ∧
  0 ≤ Q2Qc (2 # 10) ∧ 0 ≤ Q2Qc (8 # 10) ∧ 0 ≤ Q2Qc (1 # 10) ∧
  ∃ r x, main scenario_cube = Ok r ∧
         get2 (r_health_map r) 1 1 = Some (Fin x) ∧
         - Q2Qc 1 ≤ x ∧ x ≤ Q2Qc 1 ∧
         (Q2Qc (2 # 10) ≤ Q2Qc (8 # 10) → 0 ≤ x) ∧
         (Q2Qc (8 # 10) ≤ Q2Qc (2 # 10) → x ≤ 0).
Proof.
  split; [reflexivity|]. split; [simpl; lia|].
  split; [reflexivity|]. split; [reflexivity|]. split; [reflexivity|].
  split; [by vm_compute|]. split; [by vm_compute|]. split; [by vm_compute|].
  apply (main_score_of_nonnegative_pixel scenario_cube 1 1
           (Q2Qc (2 # 10)) (Q2Qc (8 # 10)) (Q2Qc (1 # 10)));
    [reflexivity|simpl; lia|reflexivity|reflexivity|reflexivity
    |by vm_compute|by vm_compute|by vm_compute].
Defined.

End nonnegative_samples.

(** ** Further concrete inputs *)

(** A cube with 100 bands has a vegetation index, but no moisture index and
    no report. *)
Example short_cube_outcomes :
  (∃ ndvi, calculate_ndvi short_cube = Ok ndvi ∧ shape ndvi = (1, 1)) ∧
  calculate_ndwi short_cube = Raise IndexError ∧
  main short_cube = Raise IndexError.
Proof.
  split; [eexists; split; [vm_compute; reflexivity|reflexivity]|].
  split; reflexivity.
Qed.

(** Shapes (2, 3) and (2, 2) cannot be broadcast; (2, 3) and (1, 3) can. *)
Example create_health_map_shapes :
  create_health_map tall_raster square_raster = Raise ValueError ∧
  ∃ h, create_health_map tall_raster sample_ndwi = Ok h ∧ shape h = (2, 3).
Proof.
  split; [reflexivity|].
  eexists; split; [vm_compute; reflexivity|reflexivity].
Qed.

(** ** The program evaluated in binary64 *)

Section binary64_evaluations.
Import PrimFloat.
Local Open Scope float_scope.

(** C5 fails as stated, in two ways.  In binary64 the raster
    [Binary64.eleven_scores], with 2 scores above 0.6 and 9 below 0.3 out of
    11, has the percentages 18.181818181818183 and 81.81818181818183, whose
    sum 100.00000000000001 exceeds 100.  And on a raster without pixels
    both percentages are NaN, which lies in no interval. *)
Lemma percentages_exceed_100_counterexample :
  Binary64.healthy_area Binary64.eleven_scores = 18.181818181818183 ∧
  Binary64.stressed_area Binary64.eleven_scores = 81.81818181818183 ∧
  Binary64.healthy_area Binary64.eleven_scores
  + Binary64.stressed_area Binary64.eleven_scores = 100.00000000000001 ∧
  (100 <? Binary64.healthy_area Binary64.eleven_scores
          + Binary64.stressed_area Binary64.eleven_scores) = true ∧
  healthy_area empty_raster = NaN ∧ stressed_area empty_raster = NaN ∧
  is_nan (Binary64.healthy_area (mk_ndarray 0 3 [])) = true.
Proof. repeat split; vm_compute; reflexivity. Qed.


(** C8.  The source comments the formula with "Avoid division by zero", yet
    where NIR and Red are both -5e-11 the denominator
    [NIR + Red + 1e-10] is exactly 0 and the numerator is 0: the vegetation
    index of a pixel with NIR equal to Red is then 0/0 = NaN instead of 0,
    in exact arithmetic and in binary64 alike. *)
Lemma equal_bands_divide_zero_by_zero :
  get3 half_eps_cube 0 0 90 = get3 half_eps_cube 0 0 50 ∧
  band half_eps_cube 90 = band half_eps_cube 50 ∧
  (∃ ndvi, calculate_ndvi half_eps_cube = Ok ndvi ∧
           get2 ndvi 0 0 = Some NaN ∧ get2 ndvi 0 0 ≠ Some c_0) ∧
  get3 Binary64.half_eps_cube 0 0 90 = get3 Binary64.half_eps_cube 0 0 50 ∧
  (-5e-11 + -5e-11 + 1e-10 = 0) ∧
  (∃ ndvi v, Binary64.calculate_ndvi Binary64.half_eps_cube = Ok ndvi ∧
             get2 ndvi 0 0 = Some v ∧ is_nan v = true ∧ (v =? 0) = false).
Proof.
  split; [reflexivity|]. split; [reflexivity|]. split.
  { eexists. split; [vm_compute; reflexivity|].
    split; [reflexivity|discriminate]. }
  split; [reflexivity|]. split; [vm_compute; reflexivity|].
  eexists _, _. split; [vm_compute; reflexivity|].
  split; [reflexivity|]. split; vm_compute; reflexivity.
Qed.

(** NIR = 5 and Red = -5 give exactly 1e11 in binary64. *)
Example binary64_cancelling_five :
  ∃ ndvi, Binary64.calculate_ndvi (Binary64.pixel_cube (-5) 5 0) = Ok ndvi ∧
          get2 ndvi 0 0 = Some 100000000000.
Proof. eexists. split; [vm_compute; reflexivity|reflexivity]. Qed.

(** The score 0.6 is not above 0.6 in binary64 either. *)
Example binary64_threshold :
  Binary64.healthy_area (mk_ndarray 1 1 [0.6]) = 0.
Proof. vm_compute. reflexivity. Qed.

(** The pixel Red = -1e-10, NIR = 0, SWIR = -5e-11 in binary64: the
    vegetation index is +inf, the moisture index is 1 and the fused score is
    NaN. *)
Example binary64_saturating_pixel :
  ∃ ndvi ndwi h v,
    Binary64.calculate_ndvi Binary64.saturating_cube = Ok ndvi ∧
    Binary64.calculate_ndwi Binary64.saturating_cube = Ok ndwi ∧
    Binary64.create_health_map ndvi ndwi = Ok h ∧
    get2 ndvi 0 0 = Some infinity ∧ get2 ndwi 0 0 = Some 1 ∧
    get2 h 0 0 = Some v ∧ is_nan v = true.
Proof.
  eexists _, _, _, _.
  split; [vm_compute; reflexivity|]. split; [vm_compute; reflexivity|].
  split; [vm_compute; reflexivity|].
  split; [reflexivity|]. split; [reflexivity|]. split; reflexivity.
Qed.

End binary64_evaluations.
